(** * Q&A dashboard backend: question lifecycle, triage listing, broadcaster

    A shallow embedding of [backend/models.py], [backend/database.py],
    [backend/main.py] and [backend/rag_service.py], followed by the
    properties of the question lifecycle, of the triage listing and of the
    WebSocket broadcaster.

    Conventions of the embedding:
    - Python [str] and SQLite [TEXT] are [string]; [len] is [String.length]
      and SQLite's BINARY collation is [String.le] (bytewise lexicographic).
    - Python [int] and SQLite [INTEGER] are [Z]; [Optional[T]] and a nullable
      column are [option T].
    - The process state (database file, connection manager, transports,
      clocks) is one record threaded through a state-and-exception monad.
      One handler runs at a time: the interleaving of asyncio tasks at
      [await] points is outside the model.
    - Rowids are not bounded, and an id handed to the store is taken to be
      one sqlite3 can bind (see [int64]). Rows with equal sort keys come
      out of a query in some order that respects the keys, not necessarily
      SQLite's. Confidences are exact rationals where the code has
      floats. *)

From Stdlib Require Import ZArith QArith Qround Ascii Lqa.
From stdpp Require Import base decidable option list strings sorting.

Local Open Scope Z_scope.

(** ** Exceptions *)

Inductive Exception :=
  | HTTPException (status_code : Z) (detail : string)
  | RequestValidationError (loc : string)  (* FastAPI answers it with 422 *)
  | ValueError (msg : string)              (* list.remove(x): x not in list *)
  | RuntimeError (msg : string).           (* send on a closed transport *)

Global Instance Exception_eq_dec : EqDecision Exception.
Proof. solve_decision. Defined.

(** ** models.py *)

(** [Field(..., pattern=...)] only ever sees anchored alternations of
    literals here, so the pattern language is kept that small. *)
Inductive regex :=
  | Lit (s : string)
  | Alt (r1 r2 : regex).

(** Match of [^r$] against the whole string. *)
Fixpoint fullmatch (r : regex) (s : string) : bool :=
  match r with
  | Lit l => bool_decide (s = l)
  | Alt r1 r2 => fullmatch r1 s || fullmatch r2 s
  end.

Module QuestionCreate.
Record t := { message : string; username : string; category : string }.

(** Request body before validation: absent keys take the [Field] defaults. *)
Record body :=
  { body_message : string;
    body_username : option string;
    body_category : option string }.

(** [message: str = Field(..., min_length=1, max_length=1000)],
    [username: str = Field(default="Guest")],
    [category: str = Field(default="General")]. *)
Definition validate (b : body) : Exception + t :=
  if bool_decide (1 ≤ String.length (body_message b) ≤ 1000)%nat then
    inr {| message := body_message b;
           username := default "Guest" (body_username b);
           category := default "General" (body_category b) |}
  else inl (RequestValidationError "message").
End QuestionCreate.

Module QuestionUpdate.
Record t := { status : string }.

(** [^(Pending|Escalated|Answered)$] *)
Definition status_pattern : regex :=
  Alt (Lit "Pending") (Alt (Lit "Escalated") (Lit "Answered")).

(** [status: str = Field(..., pattern="^(Pending|Escalated|Answered)$")] *)
Definition validate (body_status : string) : Exception + t :=
  if fullmatch status_pattern body_status then inr {| status := body_status |}
  else inl (RequestValidationError "status").
End QuestionUpdate.

Module AnswerCreate.
Record t := { question_id : Z; message : string; username : string }.

Record body :=
  { body_question_id : Z;
    body_message : string;
    body_username : option string }.

(** [question_id: int],
    [message: str = Field(..., min_length=1, max_length=2000)],
    [username: str = Field(default="Guest")]. *)
Definition validate (b : body) : Exception + t :=
  if bool_decide (1 ≤ String.length (body_message b) ≤ 2000)%nat then
    inr {| question_id := body_question_id b;
           message := body_message b;
           username := default "Guest" (body_username b) |}
  else inl (RequestValidationError "message").
End AnswerCreate.

(** ** database.py: tables *)

(** A row of [questions]. *)
Module QuestionRow.
Record t :=
  { question_id : Z;
    user_id : option Z;
    username : string;
    message : string;
    status : string;
    category : string;
    timestamp : string;
    answered_at : option string }.

Global Instance eq_dec : EqDecision t.
Proof. solve_decision. Defined.
End QuestionRow.

(** A row of [answers]. *)
Module AnswerRow.
Record t :=
  { answer_id : Z;
    question_id : Z;
    user_id : option Z;
    username : string;
    message : string;
    timestamp : string }.

Global Instance eq_dec : EqDecision t.
Proof. solve_decision. Defined.
End AnswerRow.

(** [dict(row)] of a question query: the columns of the row, and the
    [answer_count] key when the query selects it. *)
Module QuestionDict.
Record t := { row : QuestionRow.t; answer_count : option Z }.

Global Instance eq_dec : EqDecision t.
Proof. solve_decision. Defined.
End QuestionDict.

(** The response model [Question] of models.py. *)
Module Question.
Record t :=
  { question_id : Z;
    user_id : option Z;
    username : string;
    message : string;
    status : string;
    category : string;
    timestamp : string;
    answered_at : option string;
    answer_count : Z }.

Global Instance eq_dec : EqDecision t.
Proof. solve_decision. Defined.

(** Serialisation through [response_model=List[Question]]: a missing
    [answer_count] key takes the field default, [answer_count: int = 0]. *)
Definition model_validate (d : QuestionDict.t) : t :=
  let r := QuestionDict.row d in
  {| question_id := QuestionRow.question_id r;
     user_id := QuestionRow.user_id r;
     username := QuestionRow.username r;
     message := QuestionRow.message r;
     status := QuestionRow.status r;
     category := QuestionRow.category r;
     timestamp := QuestionRow.timestamp r;
     answered_at := QuestionRow.answered_at r;
     answer_count := default 0 (QuestionDict.answer_count d) |}.
End Question.

(** The database file: both tables in rowid order, and for each the
    largest rowid handed out so far ([sqlite_sequence], kept by
    AUTOINCREMENT). The [users] table plays no part below. *)
Record DB :=
  { questions : list QuestionRow.t;
    answers : list AnswerRow.t;
    questions_seq : Z;
    answers_seq : Z }.

Definition empty_db : DB :=
  {| questions := []; answers := []; questions_seq := 0; answers_seq := 0 |}.

(** ** database.py: the SQL statements, on the tables *)

Module SQL.
(** [INSERT INTO questions (user_id, username, message, category)
    VALUES (?, ?, ?, ?)]: [status] and [timestamp] take their column
    defaults ['Pending'] and [CURRENT_TIMESTAMP], [answered_at] is NULL,
    and AUTOINCREMENT hands out the next rowid. Returns [lastrowid]. *)
Definition insert_question (user_id : option Z) (username message category : string)
    (current_timestamp : string) (d : DB) : Z * DB :=
  let rowid := questions_seq d + 1 in
  (rowid,
   {| questions := questions d ++
        [ {| QuestionRow.question_id := rowid;
             QuestionRow.user_id := user_id;
             QuestionRow.username := username;
             QuestionRow.message := message;
             QuestionRow.status := "Pending";
             QuestionRow.category := category;
             QuestionRow.timestamp := current_timestamp;
             QuestionRow.answered_at := None |} ];
      answers := answers d;
      questions_seq := rowid;
      answers_seq := answers_seq d |}).

(** [INSERT INTO answers (question_id, user_id, username, message)
    VALUES (?, ?, ?, ?)]. The connection never turns foreign keys on, so
    the [question_id] reference is not checked here. *)
Definition insert_answer (question_id : Z) (user_id : option Z) (username message : string)
    (current_timestamp : string) (d : DB) : Z * DB :=
  let rowid := answers_seq d + 1 in
  (rowid,
   {| questions := questions d;
      answers := answers d ++
        [ {| AnswerRow.answer_id := rowid;
             AnswerRow.question_id := question_id;
             AnswerRow.user_id := user_id;
             AnswerRow.username := username;
             AnswerRow.message := message;
             AnswerRow.timestamp := current_timestamp |} ];
      questions_seq := questions_seq d;
      answers_seq := rowid |}).

(** [UPDATE questions SET status = ?, answered_at = ? WHERE question_id = ?] *)
Definition update_status (status : string) (answered_at : option string) (question_id : Z)
    (d : DB) : DB :=
  {| questions :=
       (λ q, if decide (QuestionRow.question_id q = question_id) then
                   {| QuestionRow.question_id := QuestionRow.question_id q;
                      QuestionRow.user_id := QuestionRow.user_id q;
                      QuestionRow.username := QuestionRow.username q;
                      QuestionRow.message := QuestionRow.message q;
                      QuestionRow.status := status;
                      QuestionRow.category := QuestionRow.category q;
                      QuestionRow.timestamp := QuestionRow.timestamp q;
                      QuestionRow.answered_at := answered_at |}
                 else q) <$> questions d;
     answers := answers d;
     questions_seq := questions_seq d;
     answers_seq := answers_seq d |}.

(** [SELECT * FROM questions WHERE question_id = ?], [fetchone()] *)
Definition select_question (question_id : Z) (d : DB) : option QuestionRow.t :=
  head (filter (λ q, QuestionRow.question_id q = question_id) (questions d)).

(** [questions q LEFT JOIN answers a ON q.question_id = a.question_id],
    for one question row: its answers, or one all-NULL right side. *)
Definition left_join (q : QuestionRow.t) (ans : list AnswerRow.t) : list (option AnswerRow.t) :=
  match filter (λ a, QuestionRow.question_id q = AnswerRow.question_id a) ans with
  | [] => [None]
  | matched => Some <$> matched
  end.

(** [COUNT(a.answer_id)]: the joined rows whose [answer_id] is not NULL. *)
Definition COUNT (joined : list (option AnswerRow.t)) : Z :=
  Z.of_nat (length (filter is_Some joined)).

(** [CASE q.status WHEN 'Escalated' THEN 0 ELSE 1 END] *)
Definition CASE_status (status : string) : Z :=
  if decide (status = "Escalated") then 0 else 1.

(** [ORDER BY timestamp DESC] *)
Definition timestamp_desc : relation QuestionDict.t :=
  λ d1 d2, String.le (QuestionRow.timestamp (QuestionDict.row d2))
                     (QuestionRow.timestamp (QuestionDict.row d1)).

(** [ORDER BY CASE q.status WHEN 'Escalated' THEN 0 ELSE 1 END,
    q.timestamp DESC] *)
Definition case_then_timestamp_desc : relation QuestionDict.t :=
  λ d1 d2,
    let k1 := CASE_status (QuestionRow.status (QuestionDict.row d1)) in
    let k2 := CASE_status (QuestionRow.status (QuestionDict.row d2)) in
    k1 < k2 ∨ (k1 = k2 ∧ timestamp_desc d1 d2).

Global Instance timestamp_desc_dec : RelDecision timestamp_desc.
Proof. intros d1 d2. unfold timestamp_desc. apply _. Defined.

Global Instance case_then_timestamp_desc_dec : RelDecision case_then_timestamp_desc.
Proof. intros d1 d2. unfold case_then_timestamp_desc. apply _. Defined.

(** The query of [get_all_questions]. [question_id] is the primary key,
    so [GROUP BY q.question_id] makes one group per question row. *)
Definition select_all_questions (d : DB) : list QuestionDict.t :=
  merge_sort case_then_timestamp_desc
    ((λ q, {| QuestionDict.row := q;
              QuestionDict.answer_count := Some (COUNT (left_join q (answers d))) |})
       <$> questions d).

(** [SELECT * FROM questions WHERE category = ? ORDER BY timestamp DESC] *)
Definition select_questions_by_category (category : string) (d : DB) : list QuestionDict.t :=
  merge_sort timestamp_desc
    ((λ q, {| QuestionDict.row := q; QuestionDict.answer_count := None |})
       <$> filter (λ q, QuestionRow.category q = category) (questions d)).

(** [ORDER BY timestamp ASC] *)
Definition timestamp_asc : relation AnswerRow.t :=
  λ a1 a2, String.le (AnswerRow.timestamp a1) (AnswerRow.timestamp a2).

Global Instance timestamp_asc_dec : RelDecision timestamp_asc.
Proof. intros a1 a2. unfold timestamp_asc. apply _. Defined.

(** [SELECT * FROM answers WHERE question_id = ? ORDER BY timestamp ASC] *)
Definition select_answers (question_id : Z) (d : DB) : list AnswerRow.t :=
  merge_sort timestamp_asc
    (filter (λ a, AnswerRow.question_id a = question_id) (answers d)).
End SQL.

(** ** Process state *)

(** A WebSocket object, compared by identity as [list.remove] does. *)
Definition WebSocket := nat.

(** The dict handed to [broadcast]: [{"type": ..., "data": ...}]. *)
Inductive MessageData :=
  | QuestionData (question : option QuestionRow.t)
  | AnswerData (answer : option AnswerRow.t).

Record Message := { type : string; data : MessageData }.

Global Instance MessageData_eq_dec : EqDecision MessageData.
Proof. solve_decision. Defined.

Global Instance Message_eq_dec : EqDecision Message.
Proof. solve_decision. Defined.

(** One call of [send_json]: to whom, what, and how it ended
    ([None]: the frame went out). *)
Record Send :=
  { target : WebSocket; payload : Message; failure : option Exception }.

Global Instance Send_eq_dec : EqDecision Send.
Proof. solve_decision. Defined.

Record State :=
  { db : DB;
    active_connections : list WebSocket;  (* manager.active_connections *)
    closed : list WebSocket;              (* transports the peer has closed *)
    wire : list Send;                     (* every send_json so far, oldest first *)
    CURRENT_TIMESTAMP : string;           (* SQLite's clock *)
    datetime_now : string }.              (* datetime.now().isoformat() *)

Definition with_db (d : DB) (s : State) : State :=
  {| db := d; active_connections := active_connections s; closed := closed s;
     wire := wire s; CURRENT_TIMESTAMP := CURRENT_TIMESTAMP s;
     datetime_now := datetime_now s |}.

Definition with_active_connections (l : list WebSocket) (s : State) : State :=
  {| db := db s; active_connections := l; closed := closed s;
     wire := wire s; CURRENT_TIMESTAMP := CURRENT_TIMESTAMP s;
     datetime_now := datetime_now s |}.

Definition with_wire (w : list Send) (s : State) : State :=
  {| db := db s; active_connections := active_connections s; closed := closed s;
     wire := w; CURRENT_TIMESTAMP := CURRENT_TIMESTAMP s;
     datetime_now := datetime_now s |}.

Definition with_closed (c : list WebSocket) (s : State) : State :=
  {| db := db s; active_connections := active_connections s; closed := c;
     wire := wire s; CURRENT_TIMESTAMP := CURRENT_TIMESTAMP s;
     datetime_now := datetime_now s |}.

Definition with_clocks (current_timestamp now : string) (s : State) : State :=
  {| db := db s; active_connections := active_connections s; closed := closed s;
     wire := wire s; CURRENT_TIMESTAMP := current_timestamp;
     datetime_now := now |}.

Definition initial_state : State :=
  {| db := empty_db; active_connections := []; closed := []; wire := [];
     CURRENT_TIMESTAMP := ""; datetime_now := "" |}.

(** ** The monad of handlers: state, and Python exceptions *)

Inductive Result (A : Type) :=
  | Return (a : A)
  | Raise (e : Exception).
Global Arguments Return {A} a.
Global Arguments Raise {A} e.

Definition M (A : Type) : Type := State → Result A * State.

Definition ret {A} (a : A) : M A := λ s, (Return a, s).

Definition raise {A} (e : Exception) : M A := λ s, (Raise e, s).

Definition bind {A B} (m : M A) (k : A → M B) : M B :=
  λ s, match m s with
       | (Return a, s') => k a s'
       | (Raise e, s') => (Raise e, s')
       end.

(** [try: m except Exception as e: handler e]. Every exception of the
    model derives from [Exception]. *)
Definition try_except {A} (m : M A) (handler : Exception → M A) : M A :=
  λ s, match m s with
       | (Return a, s') => (Return a, s')
       | (Raise e, s') => handler e s'
       end.

Definition gets {A} (f : State → A) : M A := λ s, (Return (f s), s).

Definition modify (f : State → State) : M unit := λ s, (Return tt, f s).

Notation "x <- m ;; k" := (bind m (λ x, k))
  (at level 100, m at next level, right associativity).
Notation "m ;;; k" := (bind m (λ _, k))
  (at level 100, right associativity).

(** [for x in l: body x] *)
Fixpoint for_each {A} (l : list A) (body : A → M unit) : M unit :=
  match l with
  | [] => ret tt
  | x :: l' => body x ;;; for_each l' body
  end.

(** [logger.info], [logger.error] and [print]: no effect on the state. *)
Definition log (line : string) : M unit := ret tt.

(** ** database.py: [QuestionDB] and [AnswerDB]

    Each method opens its own connection, runs one statement and commits. *)

Module QuestionDB.
Definition create_question (user_id : option Z) (username message category : string) : M Z :=
  λ s, let '(lastrowid, d) :=
         SQL.insert_question user_id username message category (CURRENT_TIMESTAMP s) (db s) in
       (Return lastrowid, with_db d s).

Definition get_all_questions : M (list QuestionDict.t) :=
  gets (λ s, SQL.select_all_questions (db s)).

(** The id is bound as a parameter of the statement. sqlite3 binds the
    integers of [int64] only and raises OverflowError on the others; ids
    are unbounded here, and a property that depends on the binding takes
    [int64] as a hypothesis. *)
Definition get_question_by_id (question_id : Z) : M (option QuestionRow.t) :=
  gets (λ s, SQL.select_question question_id (db s)).

(** [datetime.now()] is read at each call. The id is bound as in
    [get_question_by_id]. *)
Definition update_question_status (question_id : Z) (status : string) : M bool :=
  now <- gets datetime_now ;;
  let answered_at := if decide (status = "Answered") then Some now else None in
  modify (λ s, with_db (SQL.update_status status answered_at question_id (db s)) s) ;;;
  ret true.

Definition get_questions_by_category (category : string) : M (list QuestionDict.t) :=
  gets (λ s, SQL.select_questions_by_category category (db s)).
End QuestionDB.

Module AnswerDB.
Definition create_answer (question_id : Z) (user_id : option Z) (username message : string) : M Z :=
  λ s, let '(lastrowid, d) :=
         SQL.insert_answer question_id user_id username message (CURRENT_TIMESTAMP s) (db s) in
       (Return lastrowid, with_db d s).

Definition get_answers_by_question (question_id : Z) : M (list AnswerRow.t) :=
  gets (λ s, SQL.select_answers question_id (db s)).
End AnswerDB.

(** ** main.py: [ConnectionManager] *)

Definition transport_closed : Exception :=
  RuntimeError "Cannot call send once a close message has been sent.".

(** [await websocket.send_json(message)]: raises on a transport the peer
    has closed, puts the frame on the wire otherwise. *)
Definition send_json (websocket : WebSocket) (message : Message) : M unit :=
  λ s, if decide (websocket ∈ closed s) then
         (Raise transport_closed,
          with_wire (wire s ++ [ {| target := websocket; payload := message;
                                    failure := Some transport_closed |} ]) s)
       else
         (Return tt,
          with_wire (wire s ++ [ {| target := websocket; payload := message;
                                    failure := None |} ]) s).

Definition not_in_list : Exception := ValueError "list.remove(x): x not in list".

(** [list.remove(x)]: drops the first item equal to [x]. *)
Fixpoint list_remove (x : WebSocket) (l : list WebSocket) : list WebSocket :=
  match l with
  | [] => []
  | y :: l' => if decide (y = x) then l' else y :: list_remove x l'
  end.

Module ConnectionManager.
(** [await websocket.accept()], then [append]. *)
Definition connect (websocket : WebSocket) : M unit :=
  modify (λ s, with_active_connections (active_connections s ++ [websocket]) s) ;;;
  log "Client connected".

(** [self.active_connections.remove(websocket)] raises [ValueError] when
    the item is not in the list. *)
Definition disconnect (websocket : WebSocket) : M unit :=
  connections <- gets active_connections ;;
  (if decide (websocket ∈ connections) then
     modify (with_active_connections (list_remove websocket connections))
   else raise not_in_list) ;;;
  log "Client disconnected".

Definition broadcast (message : Message) : M unit :=
  connections <- gets active_connections ;;
  for_each connections (λ connection,
    try_except (send_json connection message)
               (λ e, log "Error broadcasting to client")).
End ConnectionManager.

(** ** main.py: the handlers *)

(** The claims of an access token, as [login] and [register] issue it. *)
Record Claims := { sub : string; user_id : Z; is_admin : bool }.

Record QuestionSubmitted :=
  { submitted_question_id : Z; submitted_question : option QuestionRow.t }.

Record QuestionStatusUpdated := { updated_question : option QuestionRow.t }.

Record AnswerSubmitted :=
  { submitted_answer_id : Z; submitted_answer : option AnswerRow.t }.

Definition create_question (question_data : QuestionCreate.t)
    (current_user : option Claims) : M QuestionSubmitted :=
  try_except
    (let user_id := user_id <$> current_user in
     let username := from_option sub (QuestionCreate.username question_data) current_user in
     question_id <- QuestionDB.create_question user_id username
                      (QuestionCreate.message question_data)
                      (QuestionCreate.category question_data) ;;
     question <- QuestionDB.get_question_by_id question_id ;;
     ConnectionManager.broadcast
       {| type := "new_question"; data := QuestionData question |} ;;;
     ret {| submitted_question_id := question_id; submitted_question := question |})
    (λ e, log "Error creating question" ;;;
          raise (HTTPException 500 "Failed to create question")).

(** [if category and category != "All"]: [None] and the empty string are
    falsy. *)
Definition get_questions (category : option string) : M (list QuestionDict.t) :=
  try_except
    (match category with
     | Some c =>
         if decide (c ≠ "" ∧ c ≠ "All") then QuestionDB.get_questions_by_category c
         else QuestionDB.get_all_questions
     | None => QuestionDB.get_all_questions
     end)
    (λ e, log "Error fetching questions" ;;;
          raise (HTTPException 500 "Failed to fetch questions")).

(** [current_user] is what [Depends(get_current_admin_user)] let through. *)
Definition update_question_status (question_id : Z) (update_data : QuestionUpdate.t)
    (current_user : Claims) : M QuestionStatusUpdated :=
  question <- QuestionDB.get_question_by_id question_id ;;
  (if question is None then raise (HTTPException 404 "Question not found") else ret tt) ;;;
  QuestionDB.update_question_status question_id (QuestionUpdate.status update_data) ;;;
  updated_question <- QuestionDB.get_question_by_id question_id ;;
  ConnectionManager.broadcast
    {| type := "question_updated"; data := QuestionData updated_question |} ;;;
  ret {| updated_question := updated_question |}.

Definition create_answer (answer_data : AnswerCreate.t)
    (current_user : option Claims) : M AnswerSubmitted :=
  try_except
    (question <- QuestionDB.get_question_by_id (AnswerCreate.question_id answer_data) ;;
     (if question is None then raise (HTTPException 404 "Question not found") else ret tt) ;;;
     let user_id := user_id <$> current_user in
     let username := from_option sub (AnswerCreate.username answer_data) current_user in
     answer_id <- AnswerDB.create_answer (AnswerCreate.question_id answer_data)
                    user_id username (AnswerCreate.message answer_data) ;;
     answers <- AnswerDB.get_answers_by_question (AnswerCreate.question_id answer_data) ;;
     let created_answer := head (filter (λ a, AnswerRow.answer_id a = answer_id) answers) in
     ConnectionManager.broadcast
       {| type := "new_answer"; data := AnswerData created_answer |} ;;;
     ret {| submitted_answer_id := answer_id; submitted_answer := created_answer |})
    (λ e, match e with
          | HTTPException _ _ => raise e
          | _ => log "Error creating answer" ;;;
                 raise (HTTPException 500 "Failed to create answer")
          end).

Definition get_answers (question_id : Z) : M (list AnswerRow.t) :=
  try_except
    (question <- QuestionDB.get_question_by_id question_id ;;
     (if question is None then raise (HTTPException 404 "Question not found") else ret tt) ;;;
     AnswerDB.get_answers_by_question question_id)
    (λ e, match e with
          | HTTPException _ _ => raise e
          | _ => log "Error fetching answers" ;;;
                 raise (HTTPException 500 "Failed to fetch answers")
          end).

(** ** main.py: the routes

    FastAPI validates the body against the handler's model before the
    handler runs, and turns what the handler raises into a response. *)

Inductive Response (A : Type) :=
  | Success (status_code : Z) (body : A)
  | Failure (status_code : Z) (detail : string).
Global Arguments Success {A} status_code body.
Global Arguments Failure {A} status_code detail.

Definition exception_response {A} (e : Exception) : Response A :=
  match e with
  | HTTPException status_code detail => Failure status_code detail
  | RequestValidationError loc => Failure 422 loc
  | _ => Failure 500 "Internal Server Error"
  end.

Definition route {B A} (status_code : Z) (validated : Exception + B)
    (handler : B → M A) : State → Response A * State :=
  λ s, match validated with
       | inl e => (exception_response e, s)
       | inr b =>
           match handler b s with
           | (Return a, s') => (Success status_code a, s')
           | (Raise e, s') => (exception_response e, s')
           end
       end.

(** [@app.post("/api/questions", status_code=201)] *)
Definition POST_questions (body : QuestionCreate.body) (current_user : option Claims)
    : State → Response QuestionSubmitted * State :=
  route 201 (QuestionCreate.validate body) (λ question_data, create_question question_data current_user).

(** [@app.get("/api/questions", response_model=List[Question])] *)
Definition GET_questions (category : option string)
    : State → Response (list Question.t) * State :=
  route 200 (inr category)
    (λ category, questions <- get_questions category ;;
                 ret (Question.model_validate <$> questions)).

(** [@app.patch("/api/questions/{question_id}")] *)
Definition PATCH_question (question_id : Z) (body_status : string) (current_user : Claims)
    : State → Response QuestionStatusUpdated * State :=
  route 200 (QuestionUpdate.validate body_status)
    (λ update_data, update_question_status question_id update_data current_user).

(** [@app.post("/api/answers", status_code=201)] *)
Definition POST_answers (body : AnswerCreate.body) (current_user : option Claims)
    : State → Response AnswerSubmitted * State :=
  route 201 (AnswerCreate.validate body) (λ answer_data, create_answer answer_data current_user).

(** [@app.get("/api/questions/{question_id}/answers")] *)
Definition GET_answers (question_id : Z) : State → Response (list AnswerRow.t) * State :=
  route 200 (inr question_id) get_answers.

(** The error classes of the lifecycle manager, as status codes. *)
Definition ValidationError : Z := 422.
Definition NotFoundError : Z := 404.

(** ** What happens to the process, one event at a time *)

Inductive Event :=
  | Clock (current_timestamp now : string)          (* time passes *)
  | SubmitQuestion (body : QuestionCreate.body) (current_user : option Claims)
  | UpdateStatus (question_id : Z) (new_status : string) (actor : Claims)
  | SubmitAnswer (body : AnswerCreate.body) (current_user : option Claims)
  | Register (websocket : WebSocket)                (* /ws accepted *)
  | Deregister (websocket : WebSocket)              (* /ws saw the disconnect *)
  | PeerCloses (websocket : WebSocket).             (* transport goes away *)

Definition step (s : State) (ev : Event) : State :=
  match ev with
  | Clock current_timestamp now => with_clocks current_timestamp now s
  | SubmitQuestion body current_user => snd (POST_questions body current_user s)
  | UpdateStatus question_id new_status actor => snd (PATCH_question question_id new_status actor s)
  | SubmitAnswer body current_user => snd (POST_answers body current_user s)
  | Register websocket => snd (ConnectionManager.connect websocket s)
  | Deregister websocket => snd (ConnectionManager.disconnect websocket s)
  | PeerCloses websocket => with_closed (websocket :: closed s) s
  end.

Definition run (events : list Event) (s : State) : State := foldl step s events.

(** Calls on the store itself, below the routes. *)
Inductive StoreOp :=
  | StoreClock (current_timestamp now : string)
  | StoreCreateQuestion (user_id : option Z) (username message category : string)
  | StoreUpdateQuestionStatus (question_id : Z) (status : string).

Definition store_step (s : State) (op : StoreOp) : State :=
  match op with
  | StoreClock current_timestamp now => with_clocks current_timestamp now s
  | StoreCreateQuestion user_id username message category =>
      snd (QuestionDB.create_question user_id username message category s)
  | StoreUpdateQuestionStatus question_id status =>
      snd (QuestionDB.update_question_status question_id status s)
  end.

Definition store_run (ops : list StoreOp) (s : State) : State := foldl store_step s ops.

(** ** rag_service.py *)

Module RAGService.
(** How [await self.chain.ainvoke(...)] ends. *)
Inductive ChainResult :=
  | Completed (answer : string)
  | Failed (e : Exception).

(** [self.llm] is [None] without an API key or after a failed set-up;
    otherwise [self.chain] is there to be invoked. *)
Record t := { llm : option (string → ChainResult) }.

(** Confidences are rationals, with the decimal literals read exactly. *)
Record Suggestion :=
  { question : string;
    suggested_answer : string;
    confidence : Q;
    sources : list string }.

(** [str.lower], on the ASCII letters. *)
Definition ascii_lower (c : ascii) : ascii :=
  let n := nat_of_ascii c in
  if bool_decide (65 ≤ n ≤ 90)%nat then ascii_of_nat (n + 32) else c.

Fixpoint lower (s : string) : string :=
  match s with
  | EmptyString => EmptyString
  | String c s' => String (ascii_lower c) (lower s')
  end.

(** [random.random()]: 53 bits of the generator, scaled into [0, 1). The
    bits are an input of whatever draws. *)
Definition random (bits : N) : Q := Z.of_N (bits mod 2 ^ 53) # 2 ^ 53.

(** [random.uniform(a, b)] is [a + (b - a) * random()]. *)
Definition uniform (a b : Q) (bits : N) : Q := (a + (b - a) * random bits)%Q.

(** [round(x, 2)]: to the nearest hundredth, ties to the even one. *)
Definition round2 (x : Q) : Q :=
  let y := (x * 100)%Q in
  let f := Qfloor y in
  let r := (y - inject_Z f)%Q in
  let n := match (r ?= 1 # 2)%Q with
           | Lt => f
           | Gt => f + 1
           | Eq => if Z.even f then f else f + 1
           end in
  (inject_Z n / 100)%Q.

Definition mock_responses : list (string * string) :=
  [ ("how", "To accomplish this, you would typically follow these steps: 1) Research the requirements, 2) Plan your approach, 3) Implement the solution, 4) Test thoroughly. This is a general framework that can be adapted to your specific needs.");
    ("what", "This is a great question! Based on common knowledge, the answer involves understanding the core concepts and applying them to your specific context. I'd recommend researching more about the specific topic you're asking about.");
    ("why", "There are several reasons for this: 1) Historical context, 2) Technical requirements, 3) Best practices in the field. Understanding these factors will help clarify the reasoning behind it.");
    ("when", "The timing for this depends on several factors including your specific requirements and constraints. Generally, it's best to consider the context and plan accordingly.");
    ("where", "The location or placement depends on your specific use case. Common approaches include considering accessibility, performance, and maintainability factors.") ].

Definition fallback_answer : string :=
  "Thank you for your question! This is an interesting topic. I suggest researching authoritative sources or consulting with domain experts for the most accurate and up-to-date information. If you'd like a more specific answer, please provide additional context or details.".

(** The [for keyword, response in mock_responses.items()] loop, with its
    [return] on the first keyword the question starts with. *)
Fixpoint first_keyword (question_lower : string) (responses : list (string * string))
    : option string :=
  match responses with
  | [] => None
  | (keyword, response) :: rest =>
      if String.prefix keyword question_lower then Some response
      else first_keyword question_lower rest
  end.

Definition _get_mock_answer (question : string) (bits : N) : Suggestion :=
  let question_lower := lower question in
  match first_keyword question_lower mock_responses with
  | Some response =>
      let confidence := uniform (65 # 100) (85 # 100) bits in
      {| question := question;
         suggested_answer := response;
         confidence := round2 confidence;
         sources := ["Mock RAG System"; "Demo Knowledge Base"] |}
  | None =>
      {| question := question;
         suggested_answer := fallback_answer;
         confidence := 60 # 100;
         sources := ["Mock RAG System"; "General Knowledge Base"] |}
  end.

(** [await self.chain.ainvoke({"question": question})] *)
Definition ainvoke (chain : string → ChainResult) (question : string) : M string :=
  match chain question with
  | Completed answer => ret answer
  | Failed e => raise e
  end.

Definition _get_real_answer (chain : string → ChainResult) (question : string) (bits : N)
    : M Suggestion :=
  try_except
    (answer <- ainvoke chain question ;;
     ret {| question := question;
            suggested_answer := answer;
            confidence := 85 # 100;
            sources := ["OpenAI GPT-3.5"; "Langchain RAG"] |})
    (λ e, log "Error getting real answer" ;;;
          ret (_get_mock_answer question bits)).

Definition get_suggested_answer (self : t) (question : string) (bits : N) : M Suggestion :=
  match llm self with
  | Some chain => _get_real_answer chain question bits
  | None => ret (_get_mock_answer question bits)
  end.
End RAGService.

(** [get_answer_suggestion] of main.py, on the service object it imports. *)
Definition get_answer_suggestion (rag_service : RAGService.t) (request_question : string)
    (bits : N) : M RAGService.Suggestion :=
  try_except
    (result <- RAGService.get_suggested_answer rag_service request_question bits ;;
     log "result" ;;;
     ret result)
    (λ e, log "Error getting RAG suggestion" ;;;
          raise (HTTPException 500 "Failed to generate suggestion")).

(** ** main.py: the WebSocket endpoint *)

(** What one [await websocket.receive_text()] gives. *)
Inductive Received :=
  | Text (data : string)
  | WebSocketDisconnect
  | ReceiveError (e : Exception).

(** The [while True] loop inside the [try], on what has been received so
    far: [true] once the handler has returned, [false] while it waits for
    the next item. *)
Fixpoint receive_loop (websocket : WebSocket) (inbound : list Received) : M bool :=
  match inbound with
  | [] => ret false
  | Text data :: rest => log "Received from client" ;;; receive_loop websocket rest
  | WebSocketDisconnect :: _ => ConnectionManager.disconnect websocket ;;; ret true
  | ReceiveError e :: _ =>
      log "WebSocket error" ;;; ConnectionManager.disconnect websocket ;;; ret true
  end.

Definition websocket_endpoint (websocket : WebSocket) (inbound : list Received) : M bool :=
  ConnectionManager.connect websocket ;;; receive_loop websocket inbound.

(** ** models.py and main.py: the suggestion route *)

Module RAGRequest.
(** [question: str = Field(..., min_length=1, max_length=1000)] *)
Definition validate (body_question : string) : Exception + string :=
  if bool_decide (1 ≤ String.length body_question ≤ 1000)%nat then inr body_question
  else inl (RequestValidationError "question").
End RAGRequest.

(** [@app.post("/api/rag/suggest", response_model=RAGResponse)] *)
Definition POST_rag_suggest (rag_service : RAGService.t) (body_question : string) (bits : N)
    : State → Response RAGService.Suggestion * State :=
  route 200 (RAGRequest.validate body_question)
    (λ question, get_answer_suggestion rag_service question bits).

(** ** database.py and main.py: accounts

    The account handlers touch the [users] table only, so they run on a
    state of their own. [auth.py] is outside this development: its three
    functions are a parameter. *)

Module UserRow.
Record t :=
  { user_id : Z;
    username : string;
    email : string;
    password : string;
    is_admin : bool;
    created_at : string }.

Global Instance eq_dec : EqDecision t.
Proof. solve_decision. Defined.
End UserRow.

(** The [users] table in rowid order, its AUTOINCREMENT counter, and
    SQLite's clock. *)
Record UserState :=
  { users : list UserRow.t;
    users_seq : Z;
    users_CURRENT_TIMESTAMP : string }.

Inductive AccountError :=
  | AccountHTTPException (status_code : Z) (detail : string) (headers : list (string * string))
  | TypeError (msg : string).   (* subscripting None *)

Definition Accounts (A : Type) : Type := UserState → (AccountError + A) * UserState.

Definition accounts_ret {A} (a : A) : Accounts A := λ u, (inr a, u).

Definition accounts_raise {A} (e : AccountError) : Accounts A := λ u, (inl e, u).

Definition accounts_bind {A B} (m : Accounts A) (k : A → Accounts B) : Accounts B :=
  λ u, match m u with
       | (inr a, u') => k a u'
       | (inl e, u') => (inl e, u')
       end.

Notation "x <~ m ;; k" := (accounts_bind m (λ x, k))
  (at level 100, m at next level, right associativity).

Module UserSQL.
(** Both [username] and [email] are UNIQUE. *)
Definition conflicts (username email : string) (u : UserState) : Prop :=
  Exists (λ r, UserRow.username r = username ∨ UserRow.email r = email) (users u).

Global Instance conflicts_dec username email u : Decision (conflicts username email u).
Proof. unfold conflicts. apply _. Defined.

(** The row a successful INSERT appends. *)
Definition inserted (username email password : string) (is_admin : bool) (u : UserState)
    : UserState :=
  {| users := users u ++
       [ {| UserRow.user_id := users_seq u + 1;
            UserRow.username := username;
            UserRow.email := email;
            UserRow.password := password;
            UserRow.is_admin := is_admin;
            UserRow.created_at := users_CURRENT_TIMESTAMP u |} ];
     users_seq := users_seq u + 1;
     users_CURRENT_TIMESTAMP := users_CURRENT_TIMESTAMP u |}.

(** [INSERT INTO users (username, email, password) VALUES (?, ?, ?)]:
    [is_admin] takes its default 0; [None] stands for the IntegrityError
    of a UNIQUE column. *)
Definition insert_user (username email password : string) (u : UserState)
    : option Z * UserState :=
  if decide (conflicts username email u) then (None, u)
  else (Some (users_seq u + 1), inserted username email password false u).

(** [INSERT OR IGNORE INTO users (username, email, password, is_admin)
    VALUES (?, ?, ?, ?)]. The rowid is taken before the UNIQUE columns are
    looked at, so an ignored row still moves the AUTOINCREMENT counter on. *)
Definition insert_or_ignore (username email password : string) (is_admin : bool)
    (u : UserState) : UserState :=
  if decide (conflicts username email u) then
    {| users := users u; users_seq := users_seq u + 1;
       users_CURRENT_TIMESTAMP := users_CURRENT_TIMESTAMP u |}
  else inserted username email password is_admin u.

(** [SELECT * FROM users WHERE username = ?], [fetchone()] *)
Definition select_by_username (username : string) (u : UserState) : option UserRow.t :=
  head (filter (λ r, UserRow.username r = username) (users u)).

(** [SELECT * FROM users WHERE email = ?], [fetchone()] *)
Definition select_by_email (email : string) (u : UserState) : option UserRow.t :=
  head (filter (λ r, UserRow.email r = email) (users u)).
End UserSQL.

(** [init_db], on the [users] table: the CREATE TABLE IF NOT EXISTS
    statements leave existing tables alone, and the default admin is
    inserted unless its username or email is taken. *)
Definition init_db (u : UserState) : UserState :=
  UserSQL.insert_or_ignore "admin" "admin@example.com"
    "$2b$12$LQv3c1yqBWVHxkd0LHAkCOYz6TtxMQJqhN8/LewY5GyYqVqB6F/Da" true u.

Module UserDB.
(** [except sqlite3.IntegrityError: return None] *)
Definition create_user (username email hashed_password : string) : Accounts (option Z) :=
  λ u, let '(lastrowid, u') := UserSQL.insert_user username email hashed_password u in
       (inr lastrowid, u').

Definition get_user_by_username (username : string) : Accounts (option UserRow.t) :=
  λ u, (inr (UserSQL.select_by_username username u), u).

Definition get_user_by_email (email : string) : Accounts (option UserRow.t) :=
  λ u, (inr (UserSQL.select_by_email email u), u).
End UserDB.

(** [verify_password], [get_password_hash] and [create_access_token] of
    auth.py. *)
Record Auth :=
  { verify_password : string → string → bool;
    get_password_hash : string → string;
    create_access_token : Claims → string }.

Module UserCreate.
Record t :=
  { username : string; email : string; password : string; is_admin : option bool }.
End UserCreate.

Module UserLogin.
Record t := { username : string; password : string }.
End UserLogin.

(** The ["user"] entry of a token response, and the body of [/api/me]. *)
Record UserInfo :=
  { info_user_id : Z; info_username : string; info_email : string; info_is_admin : bool }.

(** The response model [Token]. *)
Record Token := { access_token : string; token_type : string; user : UserInfo }.

Definition user_claims (r : UserRow.t) : Claims :=
  {| sub := UserRow.username r; user_id := UserRow.user_id r;
     is_admin := UserRow.is_admin r |}.

Definition user_info (r : UserRow.t) : UserInfo :=
  {| info_user_id := UserRow.user_id r; info_username := UserRow.username r;
     info_email := UserRow.email r; info_is_admin := UserRow.is_admin r |}.

(** [user["..."]] on what [get_user_by_username] returned. *)
Definition subscript (user : option UserRow.t) : Accounts UserRow.t :=
  match user with
  | Some r => accounts_ret r
  | None => accounts_raise (TypeError "'NoneType' object is not subscriptable")
  end.

(** [not user_id] on an [Optional[int]]: true of [None] and of 0. *)
Definition falsy (user_id : option Z) : bool :=
  match user_id with
  | Some i => bool_decide (i = 0)
  | None => true
  end.

Definition register (auth : Auth) (user_data : UserCreate.t) : Accounts Token :=
  existing_user <~ UserDB.get_user_by_username (UserCreate.username user_data) ;;
  if existing_user is Some _ then
    accounts_raise (AccountHTTPException 400 "Username already registered" [])
  else
  existing_email <~ UserDB.get_user_by_email (UserCreate.email user_data) ;;
  if existing_email is Some _ then
    accounts_raise (AccountHTTPException 400 "Email already registered" [])
  else
  let hashed_password := get_password_hash auth (UserCreate.password user_data) in
  user_id <~ UserDB.create_user (UserCreate.username user_data)
               (UserCreate.email user_data) hashed_password ;;
  if falsy user_id then
    accounts_raise (AccountHTTPException 500 "Failed to create user" [])
  else
  user <~ UserDB.get_user_by_username (UserCreate.username user_data) ;;
  r <~ subscript user ;;
  let access_token := create_access_token auth (user_claims r) in
  accounts_ret {| access_token := access_token; token_type := "bearer";
                  user := user_info r |}.

Definition login (auth : Auth) (credentials : UserLogin.t) : Accounts Token :=
  user <~ UserDB.get_user_by_username (UserLogin.username credentials) ;;
  match user with
  | Some r =>
      if verify_password auth (UserLogin.password credentials) (UserRow.password r) then
        let access_token := create_access_token auth (user_claims r) in
        accounts_ret {| access_token := access_token; token_type := "bearer";
                        user := user_info r |}
      else
        accounts_raise (AccountHTTPException 401 "Incorrect username or password"
                          [("WWW-Authenticate", "Bearer")])
  | None =>
      accounts_raise (AccountHTTPException 401 "Incorrect username or password"
                        [("WWW-Authenticate", "Bearer")])
  end.

Definition get_current_user_info (current_user : Claims) : Accounts UserInfo :=
  user <~ UserDB.get_user_by_username (sub current_user) ;;
  match user with
  | Some r => accounts_ret (user_info r)
  | None => accounts_raise (AccountHTTPException 404 "User not found" [])
  end.

(** Calls on the accounts, one after the other. *)
Inductive AccountCall :=
  | CallInitDb
  | CallClock (current_timestamp : string)
  | CallCreateUser (username email hashed_password : string)
  | CallRegister (user_data : UserCreate.t)
  | CallLogin (credentials : UserLogin.t)
  | CallMe (current_user : Claims).

Definition account_step (auth : Auth) (u : UserState) (call : AccountCall) : UserState :=
  match call with
  | CallInitDb => init_db u
  | CallClock current_timestamp =>
      {| users := users u; users_seq := users_seq u;
         users_CURRENT_TIMESTAMP := current_timestamp |}
  | CallCreateUser username email hashed_password =>
      snd (UserDB.create_user username email hashed_password u)
  | CallRegister user_data => snd (register auth user_data u)
  | CallLogin credentials => snd (login auth credentials u)
  | CallMe current_user => snd (get_current_user_info current_user u)
  end.

Definition account_run (auth : Auth) (calls : list AccountCall) (u : UserState) : UserState :=
  foldl (account_step auth) u calls.

Definition no_users : UserState :=
  {| users := []; users_seq := 0; users_CURRENT_TIMESTAMP := "" |}.

(** ** Vocabulary of the properties *)

(** The triage view: no question that is not Escalated comes before an
    Escalated one, and within the Escalated ones and within the others a
    question never comes before a newer one. *)
Definition escalated (q : Question.t) : Prop := Question.status q = "Escalated".

Definition triage_before (q1 q2 : Question.t) : Prop :=
  (escalated q2 → escalated q1) ∧
  ((escalated q1 ↔ escalated q2) →
   String.le (Question.timestamp q2) (Question.timestamp q1)).

Definition triage_ordered (l : list Question.t) : Prop := StronglySorted triage_before l.

Global Instance triage_before_dec : RelDecision triage_before.
Proof. intros q1 q2. unfold triage_before, escalated. apply _. Defined.

(** [answered_at] is set exactly on the questions whose status is Answered. *)
Definition answered_at_invariant (s : State) : Prop :=
  ∀ q, q ∈ questions (db s) →
       is_Some (QuestionRow.answered_at q) ↔ QuestionRow.status q = "Answered".

(** What AUTOINCREMENT and the existence check of [create_answer] maintain:
    no question and no answer refers to a question id not yet handed out. *)
Definition store_consistent (d : DB) : Prop :=
  (∀ q, q ∈ questions d → QuestionRow.question_id q ≤ questions_seq d) ∧
  (∀ a, a ∈ answers d → AnswerRow.question_id a ≤ questions_seq d).

(** The [send_json] that a broadcast of [message] in state [s] makes to
    one registered connection. *)
Definition attempt (s : State) (message : Message) (websocket : WebSocket) : Send :=
  {| target := websocket; payload := message;
     failure := if decide (websocket ∈ closed s) then Some transport_closed else None |}.

(** Several publishes in a row. *)
Definition publish_all (messages : list Message) : M unit :=
  for_each messages ConnectionManager.broadcast.

(** The sends made after [s], given a later state. *)
Definition sends_since (s s' : State) : list Send := drop (length (wire s)) (wire s').

(** The publish contract with deregistration on failure: no error for
    the publisher, delivery to every observer whose transport is open, and
    the observers whose delivery failed gone from the live set. *)
Definition publish_deregisters_failed (s : State) (message : Message) : Prop :=
  let s' := snd (ConnectionManager.broadcast message s) in
  fst (ConnectionManager.broadcast message s) = Return tt ∧
  (∀ websocket, websocket ∈ active_connections s → websocket ∉ closed s →
     {| target := websocket; payload := message; failure := None |} ∈ sends_since s s') ∧
  (∀ websocket, websocket ∈ active_connections s → websocket ∈ closed s →
     websocket ∉ active_connections s').

(** Deregistration that never fails and is idempotent on the registry. *)
Definition deregister_never_fails (s : State) (websocket : WebSocket) : Prop :=
  let once := ConnectionManager.disconnect websocket s in
  let twice := ConnectionManager.disconnect websocket (snd once) in
  fst once = Return tt ∧ fst twice = Return tt ∧
  active_connections (snd twice) = active_connections (snd once).

(** *** Sample states *)

Definition three_observers_one_closed : State :=
  with_closed [2%nat] (with_active_connections [1%nat; 2%nat; 3%nat] initial_state).

Definition sample_message : Message :=
  {| type := "new_question"; data := QuestionData None |}.

Definition guest_question (message category : string) : QuestionCreate.body :=
  {| QuestionCreate.body_message := message;
     QuestionCreate.body_username := None;
     QuestionCreate.body_category := Some category |}.

Definition guest_answer (question_id : Z) (message : string) : AnswerCreate.body :=
  {| AnswerCreate.body_question_id := question_id;
     AnswerCreate.body_message := message;
     AnswerCreate.body_username := None |}.

Definition moderator : Claims := {| sub := "admin"; user_id := 1; is_admin := true |}.

(** Two questions in one category: the older one escalated and answered
    once, the newer one still pending. *)
Definition triage_sample : State :=
  run [ Clock "2024-01-01 00:00:01" "2024-01-01T00:00:01.000000";
        SubmitQuestion (guest_question "first" "General") None;
        Clock "2024-01-01 00:00:02" "2024-01-01T00:00:02.000000";
        SubmitQuestion (guest_question "second" "General") None;
        UpdateStatus 1 "Escalated" moderator;
        SubmitAnswer (guest_answer 1 "reply") None ]
      initial_state.

(** The listing contract: the request succeeds and the questions it
    returns are in triage order. *)
Definition listing_in_triage_order (s : State) (category : option string) : Prop :=
  ∃ listed, GET_questions category s = (Success 200 listed, s) ∧ triage_ordered listed.

(** The answer-count contract: each listed question carries the number of
    answers that the answers route returns for it in the same state. *)
Definition listing_counts_answers (s : State) (category : option string) : Prop :=
  ∀ listed q,
    GET_questions category s = (Success 200 listed, s) → q ∈ listed →
    ∃ answers, GET_answers (Question.question_id q) s = (Success 200 answers, s) ∧
               Question.answer_count q = Z.of_nat (length answers).

(** What one event can do to the store. *)
Inductive store_change (s : State) : DB → Prop :=
  | change_none : store_change s (db s)
  | change_insert_question user_id username message category :
      store_change s
        (SQL.insert_question user_id username message category (CURRENT_TIMESTAMP s) (db s)).2
  | change_update_status question_id status :
      store_change s
        (SQL.update_status status
           (if decide (status = "Answered") then Some (datetime_now s) else None)
           question_id (db s))
  | change_insert_answer question_id user_id username message :
      is_Some (SQL.select_question question_id (db s)) →
      store_change s
        (SQL.insert_answer question_id user_id username message (CURRENT_TIMESTAMP s) (db s)).2.

(** *** Further vocabulary *)

(** The integers sqlite3 binds to a statement: signed, 64 bits. Outside
    this range the driver refuses the parameter (OverflowError) before
    any statement runs; the store functions above are meant for ids within
    it, and the properties about an id supplied by a caller assume it. *)
Definition int64 (i : Z) : Prop := - 2 ^ 63 ≤ i < 2 ^ 63.

(** An answer for a question that is not in the store is refused with
    NotFoundError, whatever else the submission holds. *)
Definition unknown_question_is_not_found (s : State) (body : AnswerCreate.body)
    (current_user : option Claims) : Prop :=
  SQL.select_question (AnswerCreate.body_question_id body) (db s) = None →
  ∃ detail, POST_answers body current_user s = (Failure NotFoundError detail, s).

(** One question, still pending, some seconds after it was asked. *)
Definition one_pending_question : State :=
  store_run [ StoreClock "2024-01-01 00:00:01" "2024-01-01T00:00:01.000000";
              StoreCreateQuestion None "Guest" "first" "General";
              StoreClock "2024-01-01 00:00:05" "2024-01-01T00:00:05.000000" ]
            initial_state.

(** Rowids are handed out in increasing order, from 1 up to the counter. *)
Definition ids_increasing (d : DB) : Prop :=
  0 ≤ questions_seq d ∧
  StronglySorted Z.lt (QuestionRow.question_id <$> questions d) ∧
  Forall (λ i, 1 ≤ i ≤ questions_seq d) (QuestionRow.question_id <$> questions d) ∧
  0 ≤ answers_seq d ∧
  StronglySorted Z.lt (AnswerRow.answer_id <$> answers d) ∧
  Forall (λ i, 1 ≤ i ≤ answers_seq d) (AnswerRow.answer_id <$> answers d).

(** Every answer belongs to a question of the store. *)
Definition answers_have_questions (d : DB) : Prop :=
  ∀ a, a ∈ answers d → is_Some (SQL.select_question (AnswerRow.question_id a) d).

(** The columns of a question that no statement updates. *)
Definition written_once (q : QuestionRow.t)
    : Z * option Z * string * string * string * string :=
  (QuestionRow.question_id q, QuestionRow.user_id q, QuestionRow.username q,
   QuestionRow.message q, QuestionRow.category q, QuestionRow.timestamp q).

(** A question row as the unfiltered listing returns it. *)
Definition with_answer_count (d : DB) (q : QuestionRow.t) : Question.t :=
  Question.model_validate
    {| QuestionDict.row := q;
       QuestionDict.answer_count :=
         Some (Z.of_nat (length (filter (λ a, AnswerRow.question_id a
                                              = QuestionRow.question_id q) (answers d)))) |}.

(** Usernames, emails and ids of the accounts are distinct, and the ids
    lie between 1 and the counter. *)
Definition users_unique (u : UserState) : Prop :=
  0 ≤ users_seq u ∧
  NoDup (UserRow.username <$> users u) ∧
  NoDup (UserRow.email <$> users u) ∧
  NoDup (UserRow.user_id <$> users u) ∧
  Forall (λ r, 1 ≤ UserRow.user_id r ≤ users_seq u) (users u).

(** A stand-in for auth.py in examples: the hash is the password behind a
    prefix, the token is the subject. *)
Definition sample_auth : Auth :=
  {| verify_password := λ plain hashed, bool_decide (hashed = "hashed:" +:+ plain);
     get_password_hash := λ plain, "hashed:" +:+ plain;
     create_access_token := sub |}.

Definition sample_user : UserCreate.t :=
  {| UserCreate.username := "alice"; UserCreate.email := "alice@example.com";
     UserCreate.password := "secret1"; UserCreate.is_admin := Some true |}.

(** * Properties *)

Ltac by_evaluation := apply (bool_decide_unpack _); vm_compute; exact I.

(** ** The broadcaster *)

Section broadcaster.
Implicit Types (s : State) (message : Message) (websocket : WebSocket).

Lemma with_wire_id s : with_wire (wire s) s = s.
Proof. by destruct s. Qed.

(** The loop of [broadcast] swallows every failure and only writes to
    the wire. *)
Lemma broadcast_loop connections message s :
  for_each connections
    (λ connection, try_except (send_json connection message)
                              (λ e, log "Error broadcasting to client")) s
  = (Return tt, with_wire (wire s ++ (attempt s message <$> connections)) s).
Proof.
  revert s. induction connections as [|c l IH]; intros s; simpl.
  - unfold ret. by rewrite app_nil_r, with_wire_id.
  - unfold bind, try_except at 1, send_json.
    destruct (decide (c ∈ closed s)) as [Hc|Hc]; simpl;
      rewrite IH; simpl; unfold attempt at 2; simpl;
      rewrite decide_bool_decide, ?(bool_decide_eq_true_2 _ Hc), ?(bool_decide_eq_false_2 _ Hc);
      by rewrite <-app_assoc.
Qed.

Lemma broadcast_eq message s :
  ConnectionManager.broadcast message s
  = (Return tt,
     with_wire (wire s ++ (attempt s message <$> active_connections s)) s).
Proof. unfold ConnectionManager.broadcast, bind, gets. apply broadcast_loop. Qed.

Lemma sends_since_broadcast message s :
  sends_since s (snd (ConnectionManager.broadcast message s))
  = attempt s message <$> active_connections s.
Proof.
  rewrite broadcast_eq. unfold sends_since; simpl. by rewrite drop_app_length.
Qed.

End broadcaster.

(** ** Publishing *)

Section publishing.
Implicit Types (s : State) (message : Message) (websocket : WebSocket).

Lemma publish_all_eq messages s :
  publish_all messages s
  = (Return tt,
     with_wire (wire s ++ (messages ≫= λ m, attempt s m <$> active_connections s)) s).
Proof.
  unfold publish_all. revert s.
  induction messages as [|m l IH]; intros s.
  - simpl. unfold ret. by rewrite app_nil_r, with_wire_id.
  - cbn [for_each]. unfold bind. rewrite broadcast_eq, IH, bind_cons, app_assoc.
    reflexivity.
Qed.

(** Claim C4, as amended. A publish raises nothing to the publisher; every
    registered observer whose transport is open gets the event, whichever
    other observers fail; and an observer whose delivery fails has had its
    send attempted and is still registered afterwards (a publish does not
    deregister it). *)
Theorem broadcast_isolates_failures s message :
  let s' := snd (ConnectionManager.broadcast message s) in
  fst (ConnectionManager.broadcast message s) = Return tt ∧
  (∀ websocket, websocket ∈ active_connections s → websocket ∉ closed s →
     {| target := websocket; payload := message; failure := None |} ∈ sends_since s s') ∧
  (∀ websocket, websocket ∈ active_connections s → websocket ∈ closed s →
     {| target := websocket; payload := message; failure := Some transport_closed |}
       ∈ sends_since s s'
     ∧ websocket ∈ active_connections s').
Proof.
  intros s'. subst s'. rewrite sends_since_broadcast, broadcast_eq. simpl.
  split; [done|]. split.
  - intros ws Hin Hopen. apply list_elem_of_fmap. exists ws. split; [|done].
    unfold attempt. by rewrite decide_False.
  - intros ws Hin Hclosed. split; [|done].
    apply list_elem_of_fmap. exists ws. split; [|done].
    unfold attempt. by rewrite decide_True.
Qed.

Lemma broadcast_isolates_failures_witness :
  let s := three_observers_one_closed in
  let s' := snd (ConnectionManager.broadcast sample_message s) in
  {| target := 1%nat; payload := sample_message; failure := None |} ∈ sends_since s s' ∧
  {| target := 3%nat; payload := sample_message; failure := None |} ∈ sends_since s s' ∧
  2%nat ∈ active_connections s'.
Proof.
  destruct (broadcast_isolates_failures three_observers_one_closed sample_message)
    as (_ & Hopen & Hclosed).
  split; [|split].
  - apply Hopen; by_evaluation.
  - apply Hopen; by_evaluation.
  - refine (proj2 (Hclosed 2%nat _ _)); by_evaluation.
Defined.

(** Claim C4 as stated fails: with observers 1, 2, 3 registered and the
    transport of 2 closed, the publish leaves 2 in the live set. *)
Lemma broadcast_does_not_deregister :
  ¬ publish_deregisters_failed three_observers_one_closed sample_message.
Proof.
  intros (_ & _ & Hgone). refine (Hgone 2%nat _ _ _); by_evaluation.
Qed.

End publishing.

(** ** The registry *)

Section registry.
Implicit Types (s : State) (message : Message) (websocket : WebSocket).

(** Claim C10. A publish leaves the registry exactly as it was, whatever
    the transports do; so does any run of publishes, and in such a run an
    observer that is registered and whose transport is closed sees a failed
    send for each of the events. *)
Theorem broadcast_preserves_registry s :
  (∀ message,
     active_connections (snd (ConnectionManager.broadcast message s)) = active_connections s) ∧
  (∀ messages,
     let s' := snd (publish_all messages s) in
     active_connections s' = active_connections s ∧
     ∀ websocket message,
       websocket ∈ active_connections s → websocket ∈ closed s → message ∈ messages →
       {| target := websocket; payload := message; failure := Some transport_closed |}
         ∈ sends_since s s').
Proof.
  split.
  - intros message. by rewrite broadcast_eq.
  - intros messages s'. subst s'. rewrite publish_all_eq. split; [done|].
    intros ws message Hin Hclosed Hm. unfold sends_since. simpl.
    rewrite drop_app_length. apply list_elem_of_bind.
    exists message. split; [|done].
    apply list_elem_of_fmap. exists ws. split; [|done].
    unfold attempt. by rewrite decide_True.
Qed.

Lemma broadcast_preserves_registry_witness :
  let s := three_observers_one_closed in
  let messages := [sample_message; sample_message] in
  let s' := snd (publish_all messages s) in
  active_connections s' = [1%nat; 2%nat; 3%nat] ∧
  {| target := 2%nat; payload := sample_message; failure := Some transport_closed |}
    ∈ sends_since s s'.
Proof.
  destruct (broadcast_preserves_registry three_observers_one_closed) as [_ Hall].
  destruct (Hall [sample_message; sample_message]) as [Hsame Hretried].
  split; [exact Hsame|].
  apply (Hretried 2%nat sample_message); by_evaluation.
Defined.

Lemma list_remove_absent websocket (l : list WebSocket) :
  websocket ∉ l → list_remove websocket l = l.
Proof.
  induction l as [|y l IH]; simpl; [done|].
  intros Hnot. apply not_elem_of_cons in Hnot as [Hne Hnot].
  rewrite decide_False by done. by rewrite IH.
Qed.

Lemma list_remove_NoDup websocket (l : list WebSocket) :
  NoDup l → websocket ∉ list_remove websocket l.
Proof.
  induction 1 as [|y l Hy Hl IH]; simpl; [apply not_elem_of_nil|].
  destruct (decide (y = websocket)) as [->|Hne]; [done|].
  apply not_elem_of_cons. split; [done|]. exact IH.
Qed.

Lemma disconnect_eq websocket s :
  ConnectionManager.disconnect websocket s
  = if decide (websocket ∈ active_connections s) then
      (Return tt, with_active_connections (list_remove websocket (active_connections s)) s)
    else (Raise not_in_list, s).
Proof.
  unfold ConnectionManager.disconnect, bind, gets.
  by destruct (decide (websocket ∈ active_connections s)).
Qed.

(** Claim C5, as amended. On a registry without duplicates, deregistering
    succeeds exactly when the observer is in the live set, and removes it;
    for an observer that is not (or no longer) there it raises ValueError
    and leaves the state as it is. So a second call fails, and the registry
    after it is the registry after the first call. *)
Theorem disconnect_once_then_fails s websocket :
  NoDup (active_connections s) →
  let s1 := snd (ConnectionManager.disconnect websocket s) in
  fst (ConnectionManager.disconnect websocket s)
    = (if decide (websocket ∈ active_connections s) then Return tt else Raise not_in_list) ∧
  active_connections s1 = list_remove websocket (active_connections s) ∧
  (websocket ∉ active_connections s1) ∧
  ConnectionManager.disconnect websocket s1 = (Raise not_in_list, s1).
Proof.
  intros Hnodup s1.
  assert (Hgone : websocket ∉ active_connections s1).
  { subst s1. rewrite disconnect_eq.
    destruct (decide (websocket ∈ active_connections s)) as [Hin|Hnot]; simpl; [|done].
    by apply list_remove_NoDup. }
  split; [|split; [|split]].
  - rewrite disconnect_eq. by destruct (decide (websocket ∈ active_connections s)).
  - subst s1. rewrite disconnect_eq.
    destruct (decide (websocket ∈ active_connections s)) as [Hin|Hnot]; simpl; [done|].
    by rewrite list_remove_absent.
  - exact Hgone.
  - rewrite disconnect_eq. by rewrite decide_False.
Qed.

Lemma disconnect_once_then_fails_witness :
  let s := three_observers_one_closed in
  let s1 := snd (ConnectionManager.disconnect 2%nat s) in
  active_connections s1 = [1%nat; 3%nat] ∧
  ConnectionManager.disconnect 2%nat s1 = (Raise not_in_list, s1).
Proof.
  assert (Hnodup : NoDup (active_connections three_observers_one_closed)) by by_evaluation.
  destruct (disconnect_once_then_fails three_observers_one_closed 2%nat Hnodup)
    as (_ & Hactive & _ & Hsecond).
  split; [exact Hactive | exact Hsecond].
Defined.

(** Claim C5 as stated fails: deregistering an observer that is not in
    the live set raises. *)
Lemma disconnect_unregistered_raises :
  ¬ deregister_never_fails initial_state 1%nat.
Proof. intros [Hfirst _]. vm_compute in Hfirst. discriminate Hfirst. Qed.

End registry.

(** ** The listing queries *)

Section listing.
Implicit Types (s : State) (d : DB).

Lemma CASE_status_escalated status : SQL.CASE_status status = 0 ↔ status = "Escalated".
Proof. unfold SQL.CASE_status. case_decide; split; intros; [done..|lia|done]. Qed.

Lemma CASE_status_range status : SQL.CASE_status status = 0 ∨ SQL.CASE_status status = 1.
Proof. unfold SQL.CASE_status. case_decide; auto. Qed.

Global Instance case_then_timestamp_desc_trans : Transitive SQL.case_then_timestamp_desc.
Proof.
  intros x y z. unfold SQL.case_then_timestamp_desc, SQL.timestamp_desc.
  intros [Hxy|[Hxy Txy]] [Hyz|[Hyz Tyz]]; [left; lia..|].
  right. split; [lia|]. by trans (QuestionRow.timestamp (QuestionDict.row y)).
Qed.

Global Instance case_then_timestamp_desc_total : Total SQL.case_then_timestamp_desc.
Proof.
  intros x y. unfold SQL.case_then_timestamp_desc, SQL.timestamp_desc.
  destruct (Z.lt_trichotomy
              (SQL.CASE_status (QuestionRow.status (QuestionDict.row x)))
              (SQL.CASE_status (QuestionRow.status (QuestionDict.row y))))
    as [Hlt|[Heq|Hgt]]; [by left; left| |by right; left].
  destruct (total String.le (QuestionRow.timestamp (QuestionDict.row y))
                            (QuestionRow.timestamp (QuestionDict.row x))).
  - left. by right.
  - right. right. by split.
Qed.

Global Instance timestamp_desc_trans : Transitive SQL.timestamp_desc.
Proof. intros x y z. unfold SQL.timestamp_desc. intros ??. by etrans. Qed.

Global Instance timestamp_desc_total : Total SQL.timestamp_desc.
Proof. intros x y. unfold SQL.timestamp_desc. destruct (total String.le
  (QuestionRow.timestamp (QuestionDict.row y)) (QuestionRow.timestamp (QuestionDict.row x))); auto. Qed.

(** The ORDER BY of [get_all_questions] is the triage view. *)
Lemma case_then_timestamp_desc_triage x y :
  SQL.case_then_timestamp_desc x y →
  triage_before (Question.model_validate x) (Question.model_validate y).
Proof.
  unfold SQL.case_then_timestamp_desc, SQL.timestamp_desc, triage_before, escalated.
  simpl. rewrite <-!CASE_status_escalated.
  destruct (CASE_status_range (QuestionRow.status (QuestionDict.row x))),
           (CASE_status_range (QuestionRow.status (QuestionDict.row y)));
    intros [?|[? ?]]; split; intros; try lia; try done.
Qed.

Lemma select_all_questions_triage_ordered d :
  triage_ordered (Question.model_validate <$> SQL.select_all_questions d).
Proof.
  apply StronglySorted_fmap with (R1 := SQL.case_then_timestamp_desc).
  - apply case_then_timestamp_desc_triage.
  - apply StronglySorted_merge_sort; apply _.
Qed.

Lemma select_all_questions_elem_of d x :
  x ∈ SQL.select_all_questions d ↔
  ∃ q, q ∈ questions d ∧
       x = {| QuestionDict.row := q;
              QuestionDict.answer_count := Some (SQL.COUNT (SQL.left_join q (answers d))) |}.
Proof.
  unfold SQL.select_all_questions. rewrite merge_sort_Permutation, list_elem_of_fmap.
  split; intros (q & H1 & H2); by exists q.
Qed.

Lemma filter_is_Some_fmap {A} (l : list A) : filter is_Some (Some <$> l) = Some <$> l.
Proof.
  induction l as [|a l IH]; [done|].
  rewrite fmap_cons, filter_cons_True by by eexists. by rewrite IH.
Qed.

Lemma COUNT_left_join q (ans : list AnswerRow.t) :
  SQL.COUNT (SQL.left_join q ans)
  = Z.of_nat (length (filter (λ a, QuestionRow.question_id q = AnswerRow.question_id a) ans)).
Proof.
  unfold SQL.COUNT, SQL.left_join.
  destruct (filter _ ans) as [|a l]; [done|].
  by rewrite filter_is_Some_fmap, length_fmap.
Qed.

Lemma select_answers_length question_id d :
  length (SQL.select_answers question_id d)
  = length (filter (λ a, AnswerRow.question_id a = question_id) (answers d)).
Proof. unfold SQL.select_answers. by rewrite merge_sort_Permutation. Qed.

Lemma select_question_elem_of q d :
  q ∈ questions d → is_Some (SQL.select_question (QuestionRow.question_id q) d).
Proof.
  intros Hq. unfold SQL.select_question.
  destruct (filter _ (questions d)) as [|x l] eqn:Hf; [|by eexists].
  exfalso. eapply (not_elem_of_nil q). rewrite <-Hf. by apply list_elem_of_filter.
Qed.

End listing.

(** ** The routes, in closed form *)

Section routes.
Implicit Types (s : State) (d : DB).

Lemma get_questions_all s :
  get_questions None s = (Return (SQL.select_all_questions (db s)), s).
Proof. reflexivity. Qed.

Lemma get_questions_eq category s :
  get_questions category s
  = (Return (match category with
             | Some c => if decide (c ≠ "" ∧ c ≠ "All")
                         then SQL.select_questions_by_category c (db s)
                         else SQL.select_all_questions (db s)
             | None => SQL.select_all_questions (db s)
             end), s).
Proof.
  unfold get_questions, try_except. destruct category as [c|]; [|done].
  by destruct (decide (c ≠ "" ∧ c ≠ "All")).
Qed.

Lemma GET_questions_eq category s :
  GET_questions category s
  = (Success 200
       (Question.model_validate <$>
          match category with
          | Some c => if decide (c ≠ "" ∧ c ≠ "All")
                      then SQL.select_questions_by_category c (db s)
                      else SQL.select_all_questions (db s)
          | None => SQL.select_all_questions (db s)
          end), s).
Proof. unfold GET_questions, route, bind. by rewrite get_questions_eq. Qed.

Lemma GET_answers_eq question_id s :
  GET_answers question_id s
  = match SQL.select_question question_id (db s) with
    | Some _ => (Success 200 (SQL.select_answers question_id (db s)), s)
    | None => (Failure NotFoundError "Question not found", s)
    end.
Proof.
  unfold GET_answers, route, get_answers, try_except, bind,
    QuestionDB.get_question_by_id, gets.
  by destruct (SQL.select_question question_id (db s)).
Qed.

(** Without a category (or with the empty one, or with "All") the
    listing is in triage order, whatever the store holds. *)
Lemma listing_all_in_triage_order s category :
  category = None ∨ category = Some "" ∨ category = Some "All" →
  listing_in_triage_order s category.
Proof.
  intros Hc. eexists. split; [apply GET_questions_eq|].
  destruct Hc as [->|[->| ->]]; simpl; apply select_all_questions_triage_ordered.
Qed.

(** Without a category the listing counts the answers. *)
Lemma listing_all_counts_answers s : listing_counts_answers s None.
Proof.
  intros listed Q. rewrite GET_questions_eq. intros [= <-] HQ.
  apply list_elem_of_fmap in HQ as (x & -> & Hx).
  apply select_all_questions_elem_of in Hx as (q & Hq & ->). simpl.
  rewrite GET_answers_eq.
  destruct (select_question_elem_of q (db s) Hq) as [q' ->].
  eexists. split; [done|].
  rewrite COUNT_left_join, select_answers_length. do 2 f_equal.
  apply list_filter_iff. intros a. split; intros; by symmetry.
Qed.

(** With a category the listing holds the questions of that category,
    newest first. *)
Lemma listing_by_category s category :
  category ≠ "" → category ≠ "All" →
  ∃ listed,
    GET_questions (Some category) s = (Success 200 listed, s) ∧
    StronglySorted (λ q1 q2, String.le (Question.timestamp q2) (Question.timestamp q1))
      listed ∧
    ∀ q, q ∈ questions (db s) →
         QuestionRow.category q = category ↔
         Question.model_validate {| QuestionDict.row := q; QuestionDict.answer_count := None |}
           ∈ listed.
Proof.
  intros Hne Hna.
  exists (Question.model_validate <$> SQL.select_questions_by_category category (db s)).
  split; [|split].
  - rewrite GET_questions_eq. by rewrite decide_True.
  - apply StronglySorted_fmap with (R1 := SQL.timestamp_desc); [done|].
    apply StronglySorted_merge_sort; apply _.
  - intros q Hq. unfold SQL.select_questions_by_category. split.
    + intros Hc. apply list_elem_of_fmap_2. rewrite merge_sort_Permutation.
      apply (list_elem_of_fmap_2
               (λ q, {| QuestionDict.row := q; QuestionDict.answer_count := None |})).
      by apply list_elem_of_filter.
    + intros (x & Hx & Hin)%list_elem_of_fmap.
      rewrite merge_sort_Permutation in Hin.
      apply list_elem_of_fmap in Hin as (q' & -> & Hq').
      apply list_elem_of_filter in Hq' as [Hc _].
      injection Hx as _ _ _ _ _ Hcat _ _. by rewrite Hcat.
Qed.

End routes.

Section category_listing.

(** Claim C1 fails with a category filter. In [triage_sample] the
    listing for "General" puts the pending question 2 before the escalated
    question 1: the query of [get_questions_by_category] orders by
    timestamp alone, while that of [get_all_questions] has the CASE on
    the status ([listing_all_in_triage_order]). *)
Theorem category_listing_not_in_triage_order :
  ∃ listed,
    GET_questions (Some "General") triage_sample = (Success 200 listed, triage_sample) ∧
    Question.question_id <$> listed = [2; 1] ∧
    Question.status <$> listed = ["Pending"; "Escalated"] ∧
    Question.timestamp <$> listed = ["2024-01-01 00:00:02"; "2024-01-01 00:00:01"] ∧
    ¬ triage_ordered listed ∧
    ¬ listing_in_triage_order triage_sample (Some "General").
Proof.
  eexists. split; [vm_compute; reflexivity|].
  split; [reflexivity|]. split; [reflexivity|]. split; [reflexivity|].
  assert (Hno : ¬ triage_ordered
    (Question.model_validate <$>
       SQL.select_questions_by_category "General" (db triage_sample))) by by_evaluation.
  split; [exact Hno|].
  intros (listed & Heq & Hsorted). rewrite GET_questions_eq in Heq.
  injection Heq as <-. exact (Hno Hsorted).
Qed.

(** Claim C2 fails with a category filter. In [triage_sample] the
    listing for "General" gives question 1 an answer count of 0, while the
    answers route returns one answer for it: the query of
    [get_questions_by_category] selects no [answer_count], and the response
    model fills in its default ([listing_all_counts_answers] is the other
    path). *)
Theorem category_listing_answer_count_defaulted :
  ∃ listed q answers,
    GET_questions (Some "General") triage_sample = (Success 200 listed, triage_sample) ∧
    q ∈ listed ∧
    Question.question_id q = 1 ∧
    Question.answer_count q = 0 ∧
    GET_answers 1 triage_sample = (Success 200 answers, triage_sample) ∧
    length answers = 1%nat ∧
    ¬ listing_counts_answers triage_sample (Some "General").
Proof.
  pose (q := Question.model_validate
               {| QuestionDict.row :=
                    {| QuestionRow.question_id := 1; QuestionRow.user_id := None;
                       QuestionRow.username := "Guest"; QuestionRow.message := "first";
                       QuestionRow.status := "Escalated"; QuestionRow.category := "General";
                       QuestionRow.timestamp := "2024-01-01 00:00:01";
                       QuestionRow.answered_at := None |};
                  QuestionDict.answer_count := None |}).
  assert (Hlist : ∃ listed,
    GET_questions (Some "General") triage_sample = (Success 200 listed, triage_sample) ∧
    q ∈ listed).
  { eexists. split; [vm_compute; reflexivity|]. by_evaluation. }
  assert (Hans : ∃ answers,
    GET_answers 1 triage_sample = (Success 200 answers, triage_sample) ∧
    length answers = 1%nat).
  { eexists. split; [vm_compute; reflexivity|]. reflexivity. }
  destruct Hlist as (listed & Hlisted & Hq), Hans as (answers & Hanswers & Hlen).
  exists listed, q, answers. repeat split; try done.
  intros Hcontract. destruct (Hcontract listed q Hlisted Hq) as (answers' & Heq & Hcount).
  change (Question.question_id q) with 1 in Heq. rewrite Hanswers in Heq.
  injection Heq as <-. rewrite Hlen in Hcount. discriminate Hcount.
Qed.

End category_listing.

(** ** The handlers that write, in closed form *)

Section writers.
Implicit Types (s : State) (d : DB).

Lemma create_question_eq question_data current_user s :
  create_question question_data current_user s
  = let inserted :=
      SQL.insert_question (user_id <$> current_user)
        (from_option sub (QuestionCreate.username question_data) current_user)
        (QuestionCreate.message question_data) (QuestionCreate.category question_data)
        (CURRENT_TIMESTAMP s) (db s) in
    let question := SQL.select_question inserted.1 inserted.2 in
    (Return {| submitted_question_id := inserted.1; submitted_question := question |},
     with_wire (wire s ++ (attempt s {| type := "new_question"; data := QuestionData question |}
                             <$> active_connections s))
               (with_db inserted.2 s)).
Proof.
  unfold create_question, try_except, bind, QuestionDB.create_question,
    QuestionDB.get_question_by_id, gets. simpl.
  by rewrite broadcast_eq.
Qed.

Lemma update_question_status_eq question_id update_data current_user s :
  update_question_status question_id update_data current_user s
  = match SQL.select_question question_id (db s) with
    | None => (Raise (HTTPException NotFoundError "Question not found"), s)
    | Some _ =>
        let status := QuestionUpdate.status update_data in
        let d := SQL.update_status status
                   (if decide (status = "Answered") then Some (datetime_now s) else None)
                   question_id (db s) in
        let updated := SQL.select_question question_id d in
        (Return {| updated_question := updated |},
         with_wire (wire s ++ (attempt s {| type := "question_updated";
                                            data := QuestionData updated |}
                                 <$> active_connections s))
                   (with_db d s))
    end.
Proof.
  unfold update_question_status, bind, QuestionDB.get_question_by_id,
    QuestionDB.update_question_status, gets, modify, bind, ret, raise. simpl.
  destruct (SQL.select_question question_id (db s)); [|done].
  by rewrite broadcast_eq.
Qed.

Lemma create_answer_eq answer_data current_user s :
  create_answer answer_data current_user s
  = match SQL.select_question (AnswerCreate.question_id answer_data) (db s) with
    | None => (Raise (HTTPException NotFoundError "Question not found"), s)
    | Some _ =>
        let inserted :=
          SQL.insert_answer (AnswerCreate.question_id answer_data) (user_id <$> current_user)
            (from_option sub (AnswerCreate.username answer_data) current_user)
            (AnswerCreate.message answer_data) (CURRENT_TIMESTAMP s) (db s) in
        let created :=
          head (filter (λ a, AnswerRow.answer_id a = inserted.1)
                  (SQL.select_answers (AnswerCreate.question_id answer_data) inserted.2)) in
        (Return {| submitted_answer_id := inserted.1; submitted_answer := created |},
         with_wire (wire s ++ (attempt s {| type := "new_answer"; data := AnswerData created |}
                                 <$> active_connections s))
                   (with_db inserted.2 s))
    end.
Proof.
  unfold create_answer, try_except, bind, QuestionDB.get_question_by_id,
    AnswerDB.create_answer, AnswerDB.get_answers_by_question, gets, ret, raise. simpl.
  destruct (SQL.select_question (AnswerCreate.question_id answer_data) (db s)); [|done].
  by rewrite broadcast_eq.
Qed.

Lemma step_store_change s ev : store_change s (db (step s ev)).
Proof.
  destruct ev as [ct now|body cu|qid st actor|body cu|ws|ws|ws]; simpl.
  - constructor.
  - unfold POST_questions, route.
    destruct (QuestionCreate.validate body) as [e|qd]; [constructor|].
    rewrite create_question_eq. simpl. constructor.
  - unfold PATCH_question, route.
    destruct (QuestionUpdate.validate st) as [e|ud]; [constructor|].
    rewrite update_question_status_eq.
    destruct (SQL.select_question qid (db s)); simpl; constructor.
  - unfold POST_answers, route.
    destruct (AnswerCreate.validate body) as [e|ad]; [constructor|].
    rewrite create_answer_eq.
    destruct (SQL.select_question _ (db s)) eqn:Hq; simpl; [|constructor].
    constructor. by rewrite Hq.
  - constructor.
  - rewrite disconnect_eq. destruct (decide (ws ∈ active_connections s)); simpl; apply change_none.
  - constructor.
Qed.

Lemma store_step_store_change s op : store_change s (db (store_step s op)).
Proof. destruct op; simpl; constructor. Qed.

End writers.

(** ** The question lifecycle *)

Section lifecycle.
Implicit Types (s : State) (d : DB).

Lemma store_change_answered_at s d :
  store_change s d → answered_at_invariant s → answered_at_invariant (with_db d s).
Proof.
  unfold answered_at_invariant.
  intros [|uid un msg cat|qid st|qid uid un msg Hq] Hinv q; simpl.
  - apply Hinv.
  - intros [Hold| ->%list_elem_of_singleton]%elem_of_app; [by apply Hinv|]. simpl.
    split; [by intros [? [=]]|done].
  - intros (q0 & -> & Hq0)%list_elem_of_fmap.
    destruct (decide (QuestionRow.question_id q0 = qid)); [|by apply Hinv]. simpl.
    destruct (decide (st = "Answered")); split; done.
  - apply Hinv.
Qed.

Lemma with_db_db s : with_db (db s) s = s.
Proof. by destruct s. Qed.

Lemma answered_at_invariant_db s s' :
  db s = db s' → answered_at_invariant s → answered_at_invariant s'.
Proof. unfold answered_at_invariant. by intros ->. Qed.

Lemma store_step_answered_at s op :
  answered_at_invariant s → answered_at_invariant (store_step s op).
Proof.
  intros Hinv. eapply (answered_at_invariant_db (with_db (db (store_step s op)) s)); [done|].
  apply store_change_answered_at; [apply store_step_store_change|done].
Qed.

Lemma step_answered_at s ev :
  answered_at_invariant s → answered_at_invariant (step s ev).
Proof.
  intros Hinv. eapply (answered_at_invariant_db (with_db (db (step s ev)) s)); [done|].
  apply store_change_answered_at; [apply step_store_change|done].
Qed.

Lemma create_question_pending user_id username message category s :
  ∃ q, questions (db (QuestionDB.create_question user_id username message category s).2)
         = questions (db s) ++ [q] ∧
       QuestionRow.status q = "Pending" ∧ QuestionRow.answered_at q = None.
Proof. eexists. by split. Qed.

Lemma update_question_status_sets question_id status s q :
  q ∈ questions (db (QuestionDB.update_question_status question_id status s).2) →
  QuestionRow.question_id q = question_id →
  QuestionRow.status q = status ∧
  QuestionRow.answered_at q
    = if decide (status = "Answered") then Some (datetime_now s) else None.
Proof.
  simpl. intros (q0 & -> & Hq0)%list_elem_of_fmap.
  destruct (decide (QuestionRow.question_id q0 = question_id)); simpl; [done|].
  intros; congruence.
Qed.

End lifecycle.

(** ** Rejected requests *)

Section rejections.
Implicit Types (s : State) (d : DB).

Lemma fullmatch_status_pattern status :
  fullmatch QuestionUpdate.status_pattern status = true ↔
  status = "Pending" ∨ status = "Escalated" ∨ status = "Answered".
Proof.
  simpl. rewrite !orb_true_iff, !bool_decide_eq_true. tauto.
Qed.

(** Claim C7. A status update whose status is none of Pending, Escalated
    and Answered is refused with ValidationError (422), and the state, so
    the status and [answered_at] of every question, is left as it was. *)
Theorem update_status_unrecognized s question_id new_status actor :
  new_status ≠ "Pending" → new_status ≠ "Escalated" → new_status ≠ "Answered" →
  ∃ detail,
    PATCH_question question_id new_status actor s = (Failure ValidationError detail, s).
Proof.
  intros Hp He Ha. exists "status". unfold PATCH_question, route, QuestionUpdate.validate.
  destruct (fullmatch QuestionUpdate.status_pattern new_status) eqn:Hm; [|done].
  apply fullmatch_status_pattern in Hm. tauto.
Qed.

Lemma update_status_unrecognized_witness :
  ∃ detail,
    PATCH_question 1 "Resolved" moderator triage_sample
    = (Failure ValidationError detail, triage_sample).
Proof.
  apply (update_status_unrecognized triage_sample 1 "Resolved" moderator); discriminate.
Defined.

End rejections.

(** ** Submitting a question *)

Section submission.
Implicit Types (s : State) (d : DB).

Lemma store_change_consistent s d :
  store_change s d → store_consistent (db s) → store_consistent d.
Proof.
  unfold store_consistent.
  intros [|uid un msg cat|qid st|qid uid un msg Hq] [Hqs Has]; simpl.
  - done.
  - split.
    + intros q [Hold| ->%list_elem_of_singleton]%elem_of_app; simpl; [|lia].
      specialize (Hqs q Hold). lia.
    + intros a Ha. specialize (Has a Ha). lia.
  - split; [|done].
    intros q (q0 & -> & Hq0)%list_elem_of_fmap. specialize (Hqs q0 Hq0).
    by destruct (decide (QuestionRow.question_id q0 = qid)).
  - split; [done|].
    intros a [Hold| ->%list_elem_of_singleton]%elem_of_app; simpl; [by apply Has|].
    destruct Hq as [q Hq]. unfold SQL.select_question in Hq.
    apply head_Some_elem_of, list_elem_of_filter in Hq as [<- Hin]. by apply Hqs.
Qed.

Lemma run_consistent events s :
  store_consistent (db s) → store_consistent (db (run events s)).
Proof.
  revert s. unfold run. induction events as [|ev events IH]; intros s Hs; simpl; [done|].
  apply IH. eapply store_change_consistent; [apply step_store_change|done].
Qed.

Lemma empty_db_consistent : store_consistent empty_db.
Proof. split; intros x Hx; by apply not_elem_of_nil in Hx. Qed.

(** On a consistent store the row just inserted is the one its id selects,
    and no answer refers to it yet. *)
Lemma select_inserted_question user_id username message category now d :
  store_consistent d →
  let inserted := SQL.insert_question user_id username message category now d in
  ∃ q, SQL.select_question inserted.1 inserted.2 = Some q ∧
       q ∈ questions inserted.2 ∧
       QuestionRow.question_id q = inserted.1 ∧
       QuestionRow.message q = message ∧
       QuestionRow.category q = category ∧
       QuestionRow.status q = "Pending" ∧
       QuestionRow.answered_at q = None ∧
       SQL.COUNT (SQL.left_join q (answers inserted.2)) = 0.
Proof.
  intros [Hqs Has]. cbv zeta.
  exists {| QuestionRow.question_id := questions_seq d + 1;
            QuestionRow.user_id := user_id; QuestionRow.username := username;
            QuestionRow.message := message; QuestionRow.status := "Pending";
            QuestionRow.category := category; QuestionRow.timestamp := now;
            QuestionRow.answered_at := None |}.
  split; [|split; [|do 5 (split; [reflexivity|])]].
  - unfold SQL.select_question. simpl. rewrite filter_app.
    assert (Hnone : filter (λ q, QuestionRow.question_id q = questions_seq d + 1)
                      (questions d) = []).
    { destruct (filter _ (questions d)) as [|q l] eqn:Hf; [done|].
      assert (Hq : q ∈ filter (λ q, QuestionRow.question_id q = questions_seq d + 1)
                     (questions d)) by (rewrite Hf; left).
      apply list_elem_of_filter in Hq as [Hid Hin]. specialize (Hqs q Hin). lia. }
    rewrite Hnone, filter_cons_True by done. done.
  - simpl. apply elem_of_app. right. by apply list_elem_of_singleton.
  - rewrite COUNT_left_join. simpl.
    destruct (filter _ (answers d)) as [|a l] eqn:Hf; [done|].
    assert (Ha : a ∈ filter (λ a, questions_seq d + 1 = AnswerRow.question_id a) (answers d))
      by (rewrite Hf; left).
    apply list_elem_of_filter in Ha as [Hid Hin]. specialize (Has a Hin). lia.
Qed.

(** Claim C8. In any state reached by requests from the initial one, a
    submission whose message has between 1 and 1000 characters succeeds
    with the stored question, and a listing after it (of everything, or of
    the question's own category) contains that question with status
    Pending, answer count 0 and [answered_at] null. *)
Theorem submit_question_then_list events body current_user :
  (1 ≤ String.length (QuestionCreate.body_message body) ≤ 1000)%nat →
  let s := run events initial_state in
  ∃ q s',
    POST_questions body current_user s
      = (Success 201 {| submitted_question_id := QuestionRow.question_id q;
                        submitted_question := Some q |}, s') ∧
    QuestionRow.message q = QuestionCreate.body_message body ∧
    ∀ category, category = None ∨ category = Some (QuestionRow.category q) →
      ∃ listed Q,
        GET_questions category s' = (Success 200 listed, s') ∧
        Q ∈ listed ∧
        Question.question_id Q = QuestionRow.question_id q ∧
        Question.message Q = QuestionCreate.body_message body ∧
        Question.status Q = "Pending" ∧
        Question.answer_count Q = 0 ∧
        Question.answered_at Q = None.
Proof.
  intros Hvalid s.
  assert (Hs : store_consistent (db s)) by apply run_consistent, empty_db_consistent.
  unfold POST_questions, route, QuestionCreate.validate.
  rewrite bool_decide_eq_true_2 by done. rewrite create_question_eq.
  set (qd := {| QuestionCreate.message := _ |}).
  destruct (select_inserted_question (user_id <$> current_user)
              (from_option sub (QuestionCreate.username qd) current_user)
              (QuestionCreate.message qd) (QuestionCreate.category qd)
              (CURRENT_TIMESTAMP s) (db s) Hs)
    as (q & Hsel & Hin & Hid & Hmsg & Hcat & Hst & Hat & Hcount).
  cbv zeta. rewrite Hsel, <-Hid. eexists q, _. split; [done|]. split; [done|].
  intros category Hcategory. rewrite GET_questions_eq. simpl db.
  set (d' := (SQL.insert_question _ _ _ _ _ _).2) in *.
  assert (Hall : Question.model_validate
                   {| QuestionDict.row := q; QuestionDict.answer_count := Some 0 |}
                 ∈ Question.model_validate <$> SQL.select_all_questions d').
  { apply list_elem_of_fmap_2, select_all_questions_elem_of.
    exists q. by rewrite Hcount. }
  destruct Hcategory as [-> | ->].
  { eexists _, _. split; [done|]. split; [exact Hall|]. by simpl. }
  destruct (decide (QuestionRow.category q ≠ "" ∧ QuestionRow.category q ≠ "All")).
  - eexists _, (Question.model_validate
                  {| QuestionDict.row := q; QuestionDict.answer_count := None |}).
    split; [done|]. split; [|by simpl].
    apply list_elem_of_fmap_2. unfold SQL.select_questions_by_category.
    rewrite merge_sort_Permutation.
    apply (list_elem_of_fmap_2
             (λ q, {| QuestionDict.row := q; QuestionDict.answer_count := None |})).
    by apply list_elem_of_filter.
  - eexists _, _. split; [done|]. split; [exact Hall|]. by simpl.
Qed.

Lemma submit_question_then_list_witness :
  ∃ q s',
    POST_questions (guest_question "third" "Billing") None triage_sample
      = (Success 201 {| submitted_question_id := QuestionRow.question_id q;
                        submitted_question := Some q |}, s') ∧
    ∃ listed Q,
      GET_questions None s' = (Success 200 listed, s') ∧ Q ∈ listed ∧
      Question.question_id Q = QuestionRow.question_id q ∧
      Question.status Q = "Pending" ∧ Question.answer_count Q = 0 ∧
      Question.answered_at Q = None.
Proof.
  assert (Hvalid : (1 ≤ String.length
                          (QuestionCreate.body_message (guest_question "third" "Billing"))
                      ≤ 1000)%nat) by (vm_compute; lia).
  destruct (submit_question_then_list
              [ Clock "2024-01-01 00:00:01" "2024-01-01T00:00:01.000000";
                SubmitQuestion (guest_question "first" "General") None;
                Clock "2024-01-01 00:00:02" "2024-01-01T00:00:02.000000";
                SubmitQuestion (guest_question "second" "General") None;
                UpdateStatus 1 "Escalated" moderator;
                SubmitAnswer (guest_answer 1 "reply") None ]
              (guest_question "third" "Billing") None Hvalid)
    as (q & s' & Hpost & _ & Hlist).
  destruct (Hlist None (or_introl eq_refl))
    as (listed & Q & Hget & HQ & Hid & _ & Hst & Hcount & Hat).
  exists q, s'. split; [exact Hpost|]. by exists listed, Q.
Defined.

End submission.

(** ** The suggestion service *)

Section suggestions.
Import RAGService.

Lemma random_unit_interval bits : (0 <= random bits <= 1)%Q.
Proof.
  unfold random, Qle. simpl Qnum. simpl Qden.
  assert (Hlt : (bits mod 2 ^ 53 < 2 ^ 53)%N) by (apply N.mod_lt; vm_compute; discriminate).
  change (Z.pos (2 ^ 53)) with (Z.of_N (2 ^ 53)).
  set (m := (2 ^ 53)%N) in *. set (r := (bits mod m)%N) in *. clearbody r m. lia.
Qed.

Lemma uniform_between (a b : Q) bits :
  (a <= b)%Q → (a <= uniform a b bits <= b)%Q.
Proof.
  unfold uniform. intros Hab. destruct (random_unit_interval bits) as [Hu0 Hu1].
  split; nra.
Qed.

(** Rounding to hundredths keeps a value of [0, 1] in [0, 1]. *)
Lemma round2_unit_interval (x : Q) : (0 <= x <= 1)%Q → (0 <= round2 x <= 1)%Q.
Proof.
  intros [Hx0 Hx1]. unfold round2.
  set (y := (x * 100)%Q). set (f := Qfloor y).
  assert (Hy : (0 <= y <= 100)%Q) by (unfold y; split; lra).
  assert (Hf0 : 0 ≤ f).
  { change 0 with (Qfloor 0). apply Qfloor_resp_le, Hy. }
  assert (Hfy : (inject_Z f <= y)%Q) by apply Qfloor_le.
  assert (Hf100 : f ≤ 100).
  { rewrite Zle_Qle. change (inject_Z 100) with 100%Q. lra. }
  assert (Hhalf : (1 # 2 <= y - inject_Z f)%Q → f + 1 ≤ 100).
  { intros Hr. assert (Hlt : f < 100); [|lia].
    rewrite Zlt_Qlt. change (inject_Z 100) with 100%Q. lra. }
  assert (Hn : ∀ n, 0 ≤ n ≤ 100 → (0 <= inject_Z n / 100 <= 1)%Q).
  { intros n [Hn0 Hn1]. rewrite Zle_Qle in Hn0, Hn1.
    change (inject_Z 0) with 0%Q in Hn0. change (inject_Z 100) with 100%Q in Hn1.
    unfold Qdiv. change (/ 100)%Q with (1 # 100)%Q. split; lra. }
  apply Hn.
  destruct (y - inject_Z f ?= 1 # 2)%Q eqn:Hc.
  - apply Qeq_alt in Hc. assert (f + 1 ≤ 100) by (apply Hhalf; lra).
    destruct (Z.even f); lia.
  - lia.
  - apply Qgt_alt in Hc. assert (f + 1 ≤ 100) by (apply Hhalf; lra). lia.
Qed.

Lemma _get_mock_answer_confidence question bits :
  (0 <= confidence (_get_mock_answer question bits) <= 1)%Q.
Proof.
  unfold _get_mock_answer.
  destruct (first_keyword (lower question) mock_responses); simpl.
  - apply round2_unit_interval.
    destruct (uniform_between (65 # 100) (85 # 100) bits) as [Hlo Hhi]; [lra|].
    split; lra.
  - split; lra.
Qed.

Lemma get_suggested_answer_eq self question bits s :
  get_suggested_answer self question bits s
  = (Return match llm self with
            | Some chain =>
                match chain question with
                | Completed answer =>
                    {| question := question; suggested_answer := answer;
                       confidence := 85 # 100;
                       sources := ["OpenAI GPT-3.5"; "Langchain RAG"] |}
                | Failed e => _get_mock_answer question bits
                end
            | None => _get_mock_answer question bits
            end, s).
Proof.
  unfold get_suggested_answer, _get_real_answer, ainvoke, try_except, bind.
  destruct (llm self) as [chain|]; [|done]. by destruct (chain question).
Qed.

(** Claim C9. When the chain fails for a question, the service returns
    the mock answer instead of raising, and so does the handler; and the
    suggestion returned, from whichever source, has a confidence between
    0 and 1. *)
Theorem suggestion_falls_back chain question bits e s :
  chain question = Failed e →
  get_suggested_answer {| llm := Some chain |} question bits s
    = (Return (_get_mock_answer question bits), s) ∧
  get_answer_suggestion {| llm := Some chain |} question bits s
    = (Return (_get_mock_answer question bits), s) ∧
  ∀ self, ∃ suggestion,
    get_suggested_answer self question bits s = (Return suggestion, s) ∧
    (0 <= confidence suggestion <= 1)%Q.
Proof.
  intros Hfail.
  assert (Hmock : get_suggested_answer {| llm := Some chain |} question bits s
                  = (Return (_get_mock_answer question bits), s)).
  { rewrite get_suggested_answer_eq. simpl. by rewrite Hfail. }
  split; [exact Hmock|]. split.
  - unfold get_answer_suggestion, try_except, bind. by rewrite Hmock.
  - intros self. rewrite get_suggested_answer_eq. eexists. split; [done|].
    destruct (llm self) as [chain'|]; [|by apply _get_mock_answer_confidence].
    destruct (chain' question); [|by apply _get_mock_answer_confidence].
    simpl. split; lra.
Qed.

Lemma suggestion_falls_back_witness :
  get_suggested_answer
    {| llm := Some (λ _, Failed (RuntimeError "connection refused")) |}
    "How do I reset my password?" 4503599627370496%N initial_state
  = (Return (_get_mock_answer "How do I reset my password?" 4503599627370496%N),
     initial_state).
Proof.
  refine (proj1 (suggestion_falls_back (λ _, Failed (RuntimeError "connection refused"))
                   "How do I reset my password?" 4503599627370496%N
                   (RuntimeError "connection refused") initial_state _)).
  reflexivity.
Defined.

End suggestions.

(** ** Further properties of the store *)

Section store_invariants.
Implicit Types (s : State) (d : DB).

Lemma StronglySorted_lt_NoDup (l : list Z) : StronglySorted Z.lt l → NoDup l.
Proof.
  induction 1 as [|x l Hl IH Hx]; constructor; [|done].
  intros Hin. rewrite Forall_forall in Hx. specialize (Hx x Hin). lia.
Qed.

Lemma StronglySorted_lt_snoc (l : list Z) (n : Z) :
  0 ≤ n → StronglySorted Z.lt l → Forall (λ i, 1 ≤ i ≤ n) l →
  StronglySorted Z.lt (l ++ [n + 1]) ∧ Forall (λ i, 1 ≤ i ≤ n + 1) (l ++ [n + 1]).
Proof.
  intros Hn Hs Hb. split.
  - apply StronglySorted_app. split; [|split; [done|repeat constructor]].
    intros x1 x2 H1 ->%list_elem_of_singleton.
    rewrite Forall_forall in Hb. specialize (Hb x1 H1). lia.
  - apply Forall_app. split.
    + eapply Forall_impl; [exact Hb|]. intros; simpl in *; lia.
    + apply Forall_singleton. lia.
Qed.

Lemma update_status_ids status answered_at question_id d :
  QuestionRow.question_id <$> questions (SQL.update_status status answered_at question_id d)
  = QuestionRow.question_id <$> questions d.
Proof.
  simpl. rewrite <-list_fmap_compose. apply list_fmap_ext.
  intros i q _. simpl. by destruct (decide (QuestionRow.question_id q = question_id)).
Qed.

Lemma update_status_written_once status answered_at question_id d :
  written_once <$> questions (SQL.update_status status answered_at question_id d)
  = written_once <$> questions d.
Proof.
  simpl. rewrite <-list_fmap_compose. apply list_fmap_ext.
  intros i q _. simpl. by destruct (decide (QuestionRow.question_id q = question_id)).
Qed.

Lemma store_change_ids_increasing s d :
  store_change s d → ids_increasing (db s) → ids_increasing d.
Proof.
  unfold ids_increasing.
  intros [|uid un msg cat|qid st|qid uid un msg Hq] (Hq0 & Hqs & Hqb & Ha0 & Has & Hab).
  - done.
  - simpl. rewrite fmap_app. simpl.
    destruct (StronglySorted_lt_snoc _ _ Hq0 Hqs Hqb) as [? ?].
    split; [lia|]. by repeat split.
  - rewrite update_status_ids. by repeat split.
  - simpl. rewrite fmap_app. simpl.
    destruct (StronglySorted_lt_snoc _ _ Ha0 Has Hab) as [? ?].
    do 3 (split; [done|]). split; [lia|]. by split.
Qed.

Lemma select_question_app qid (l1 l2 : list QuestionRow.t) d1 d2 :
  questions d1 = l1 → questions d2 = l1 ++ l2 →
  is_Some (SQL.select_question qid d1) → 
  SQL.select_question qid d2 = SQL.select_question qid d1.
Proof.
  unfold SQL.select_question. intros -> -> [q Hq]. rewrite filter_app.
  destruct (filter _ l1); [done|]. done.
Qed.

Lemma select_question_update_status status answered_at question_id qid d :
  SQL.select_question qid (SQL.update_status status answered_at question_id d)
  = (λ q, if decide (QuestionRow.question_id q = question_id) then
            {| QuestionRow.question_id := QuestionRow.question_id q;
               QuestionRow.user_id := QuestionRow.user_id q;
               QuestionRow.username := QuestionRow.username q;
               QuestionRow.message := QuestionRow.message q;
               QuestionRow.status := status;
               QuestionRow.category := QuestionRow.category q;
               QuestionRow.timestamp := QuestionRow.timestamp q;
               QuestionRow.answered_at := answered_at |}
          else q) <$> SQL.select_question qid d.
Proof.
  unfold SQL.select_question. simpl.
  induction (questions d) as [|q l IH]; [done|].
  rewrite fmap_cons.
  destruct (decide (QuestionRow.question_id q = qid)) as [Hq|Hq].
  - rewrite !filter_cons_True; [done|done|].
    by destruct (decide (QuestionRow.question_id q = question_id)).
  - rewrite !filter_cons_False; [done|done|].
    by destruct (decide (QuestionRow.question_id q = question_id)).
Qed.

Lemma store_change_answers_have_questions s d :
  store_change s d → answers_have_questions (db s) → answers_have_questions d.
Proof.
  unfold answers_have_questions.
  intros [|uid un msg cat|qid st|qid uid un msg Hq] Hinv a; simpl.
  - apply Hinv.
  - intros Ha. specialize (Hinv a Ha).
    erewrite (select_question_app _ (questions (db s))); [done|done|done|done].
  - intros Ha. specialize (Hinv a Ha).
    rewrite select_question_update_status. by apply fmap_is_Some.
  - intros [Hold| ->%list_elem_of_singleton]%elem_of_app; [by apply Hinv|done].
Qed.

Lemma run_invariant (P : DB → Prop) :
  (∀ s d, store_change s d → P (db s) → P d) →
  ∀ events s, P (db s) → P (db (run events s)).
Proof.
  intros Hstep events. unfold run.
  induction events as [|ev events IH]; intros s Hs; simpl; [done|].
  apply IH. eapply Hstep; [apply step_store_change|done].
Qed.

(** Property X1. In every state reached by requests from the initial
    one, the question ids and the answer ids are each strictly increasing in
    table order, hence pairwise distinct, and lie between 1 and the
    AUTOINCREMENT counter: no id is handed out twice. *)
Theorem ids_unique_and_increasing events :
  let d := db (run events initial_state) in
  ids_increasing d ∧
  NoDup (QuestionRow.question_id <$> questions d) ∧
  NoDup (AnswerRow.answer_id <$> answers d).
Proof.
  intros d.
  assert (Hinv : ids_increasing d).
  { apply (run_invariant ids_increasing store_change_ids_increasing).
    repeat split; simpl; try lia; constructor. }
  split; [done|]. destruct Hinv as (_ & Hq & _ & _ & Ha & _).
  split; by apply StronglySorted_lt_NoDup.
Qed.

(** Property X2. In every state reached by requests from the initial
    one, each stored answer carries the id of a question that is in the
    store: the routes create no orphan answer. *)
Theorem answers_belong_to_questions events a :
  a ∈ answers (db (run events initial_state)) →
  ∃ q, SQL.select_question (AnswerRow.question_id a) (db (run events initial_state)) = Some q ∧
       q ∈ questions (db (run events initial_state)) ∧
       QuestionRow.question_id q = AnswerRow.question_id a.
Proof.
  intros Ha.
  assert (Hinv : answers_have_questions (db (run events initial_state))).
  { apply (run_invariant answers_have_questions store_change_answers_have_questions).
    intros x Hx. by apply not_elem_of_nil in Hx. }
  destruct (Hinv a Ha) as [q Hq]. exists q. split; [done|].
  unfold SQL.select_question in Hq.
  apply head_Some_elem_of, list_elem_of_filter in Hq as [Hid Hin]. by split.
Qed.

Lemma answers_belong_to_questions_witness :
  ∃ q, SQL.select_question 1 (db triage_sample) = Some q ∧
       q ∈ questions (db triage_sample) ∧ QuestionRow.question_id q = 1.
Proof.
  refine (answers_belong_to_questions
            [ Clock "2024-01-01 00:00:01" "2024-01-01T00:00:01.000000";
              SubmitQuestion (guest_question "first" "General") None;
              Clock "2024-01-01 00:00:02" "2024-01-01T00:00:02.000000";
              SubmitQuestion (guest_question "second" "General") None;
              UpdateStatus 1 "Escalated" moderator;
              SubmitAnswer (guest_answer 1 "reply") None ]
            {| AnswerRow.answer_id := 1; AnswerRow.question_id := 1;
               AnswerRow.user_id := None; AnswerRow.username := "Guest";
               AnswerRow.message := "reply";
               AnswerRow.timestamp := "2024-01-01 00:00:02" |} _).
  by_evaluation.
Defined.

Lemma store_change_append_only s d :
  store_change s d →
  answers (db s) `prefix_of` answers d ∧
  (written_once <$> questions (db s)) `prefix_of` (written_once <$> questions d).
Proof.
  intros [|uid un msg cat|qid st|qid uid un msg Hq].
  - done.
  - simpl. split; [done|]. rewrite fmap_app. by apply prefix_app_r.
  - split; [done|]. by rewrite update_status_written_once.
  - simpl. split; [by apply prefix_app_r|done].
Qed.

(** Property X3. No request deletes or rewrites what is stored: after any
    run of events the answers of the earlier state are, unchanged, the
    first answers of the later one, and so are the questions as far as
    their id, author, message, category and timestamp go (only status and
    [answered_at] ever change). *)
Theorem store_is_append_only events s :
  answers (db s) `prefix_of` answers (db (run events s)) ∧
  (written_once <$> questions (db s))
    `prefix_of` (written_once <$> questions (db (run events s))).
Proof.
  revert s. unfold run. induction events as [|ev events IH]; intros s; simpl; [done|].
  destruct (store_change_append_only s _ (step_store_change s ev)) as [Ha Hq].
  destruct (IH (step s ev)) as [Ha' Hq']. split; by etrans.
Qed.

End store_invariants.

(** ** Further properties of the listings *)

Section listings.
Implicit Types (s : State) (d : DB).

Global Instance timestamp_asc_trans : Transitive SQL.timestamp_asc.
Proof. intros x y z. unfold SQL.timestamp_asc. intros ??. by etrans. Qed.

Global Instance timestamp_asc_total : Total SQL.timestamp_asc.
Proof.
  intros x y. unfold SQL.timestamp_asc.
  destruct (total String.le (AnswerRow.timestamp x) (AnswerRow.timestamp y)); auto.
Qed.

(** Property X4. Without a category the listing succeeds, leaves the
    state alone, is in triage order, and holds every question of the store
    exactly once, each with the number of answers stored for it. *)
Theorem listing_all_is_triage_view s :
  ∃ listed,
    GET_questions None s = (Success 200 listed, s) ∧
    triage_ordered listed ∧
    listed ≡ₚ with_answer_count (db s) <$> questions (db s).
Proof.
  eexists. split; [apply GET_questions_eq|]. split.
  - apply select_all_questions_triage_ordered.
  - unfold SQL.select_all_questions. rewrite merge_sort_Permutation.
    rewrite <-list_fmap_compose.
    erewrite list_fmap_ext; [done|]. intros i q _. simpl.
    unfold with_answer_count. rewrite COUNT_left_join. do 5 f_equal.
    apply list_filter_iff. intros a. split; intros; by symmetry.
Qed.

(** Property X5. With a category other than the empty one and "All", the
    listing succeeds, leaves the state alone, is ordered newest first, and
    holds exactly the questions of that category, every one of them with
    an answer count of 0. *)
Theorem listing_category_is_filter s category :
  category ≠ "" → category ≠ "All" →
  ∃ listed,
    GET_questions (Some category) s = (Success 200 listed, s) ∧
    StronglySorted (λ q1 q2, String.le (Question.timestamp q2) (Question.timestamp q1))
      listed ∧
    listed ≡ₚ (λ q, Question.model_validate
                      {| QuestionDict.row := q; QuestionDict.answer_count := None |})
              <$> filter (λ q, QuestionRow.category q = category) (questions (db s)) ∧
    Forall (λ q, Question.category q = category ∧ Question.answer_count q = 0) listed.
Proof.
  intros Hne Hna.
  exists (Question.model_validate <$> SQL.select_questions_by_category category (db s)).
  assert (Hperm : Question.model_validate <$> SQL.select_questions_by_category category (db s)
                  ≡ₚ (λ q, Question.model_validate
                             {| QuestionDict.row := q; QuestionDict.answer_count := None |})
                     <$> filter (λ q, QuestionRow.category q = category) (questions (db s))).
  { unfold SQL.select_questions_by_category. rewrite merge_sort_Permutation.
    by rewrite <-list_fmap_compose. }
  split; [|split; [|split]].
  - rewrite GET_questions_eq. by rewrite decide_True.
  - apply StronglySorted_fmap with (R1 := SQL.timestamp_desc); [done|].
    apply StronglySorted_merge_sort; apply _.
  - exact Hperm.
  - rewrite Hperm. apply Forall_fmap, Forall_forall.
    intros q [Hc _]%list_elem_of_filter. by split.
Qed.

Lemma listing_category_is_filter_witness :
  ∃ listed,
    GET_questions (Some "General") triage_sample = (Success 200 listed, triage_sample) ∧
    Forall (λ q, Question.category q = "General" ∧ Question.answer_count q = 0) listed.
Proof.
  destruct (listing_category_is_filter triage_sample "General")
    as (listed & Hget & _ & _ & Hall); [discriminate|discriminate|].
  by exists listed.
Defined.

(** Property X6. For a question that is in the store, the answers route
    succeeds, leaves the state alone, and returns exactly the answers
    stored for that question, oldest first. *)
Theorem get_answers_sorted_complete s question_id q :
  SQL.select_question question_id (db s) = Some q →
  ∃ listed,
    GET_answers question_id s = (Success 200 listed, s) ∧
    StronglySorted (λ a1 a2, String.le (AnswerRow.timestamp a1) (AnswerRow.timestamp a2))
      listed ∧
    listed ≡ₚ filter (λ a, AnswerRow.question_id a = question_id) (answers (db s)).
Proof.
  intros Hq. eexists. split; [by rewrite GET_answers_eq, Hq|]. split.
  - apply (StronglySorted_merge_sort SQL.timestamp_asc).
  - apply merge_sort_Permutation.
Qed.

Lemma get_answers_sorted_complete_witness :
  ∃ listed,
    GET_answers 1 triage_sample = (Success 200 listed, triage_sample) ∧
    listed ≡ₚ filter (λ a, AnswerRow.question_id a = 1) (answers (db triage_sample)).
Proof.
  destruct (get_answers_sorted_complete triage_sample 1
              {| QuestionRow.question_id := 1; QuestionRow.user_id := None;
                 QuestionRow.username := "Guest"; QuestionRow.message := "first";
                 QuestionRow.status := "Escalated"; QuestionRow.category := "General";
                 QuestionRow.timestamp := "2024-01-01 00:00:01";
                 QuestionRow.answered_at := None |})
    as (listed & Hget & _ & Hperm); [vm_compute; reflexivity|].
  by exists listed.
Defined.

End listings.

(** ** Further properties of the writing routes *)

Section writes.
Implicit Types (s : State) (d : DB).

Lemma sends_since_with_wire s (sent : list Send) d :
  sends_since s (with_wire (wire s ++ sent) (with_db d s)) = sent.
Proof. unfold sends_since. simpl. by rewrite drop_app_length. Qed.

(** Property X7. A status update with one of the three statuses, for a
    question that is in the store, answers 200 with the question as it is
    now stored: the new status, [answered_at] set to the current time for
    Answered and null otherwise, and every other column as before. The
    questions with another id are untouched, the answers too, and each
    registered connection is sent one "question_updated" event that
    carries the updated question. *)
Theorem update_status_applies s question_id new_status actor q :
  SQL.select_question question_id (db s) = Some q →
  new_status = "Pending" ∨ new_status = "Escalated" ∨ new_status = "Answered" →
  ∃ q' s',
    PATCH_question question_id new_status actor s
      = (Success 200 {| updated_question := Some q' |}, s') ∧
    QuestionRow.status q' = new_status ∧
    QuestionRow.answered_at q'
      = (if decide (new_status = "Answered") then Some (datetime_now s) else None) ∧
    written_once q' = written_once q ∧
    (∀ x, x ∈ questions (db s) → QuestionRow.question_id x ≠ question_id →
          x ∈ questions (db s')) ∧
    answers (db s') = answers (db s) ∧
    active_connections s' = active_connections s ∧
    sends_since s s'
      = attempt s {| type := "question_updated"; data := QuestionData (Some q') |}
          <$> active_connections s.
Proof.
  intros Hq Hstatus.
  assert (Hid : QuestionRow.question_id q = question_id).
  { unfold SQL.select_question in Hq.
    by apply head_Some_elem_of, list_elem_of_filter in Hq as [? _]. }
  unfold PATCH_question, route, QuestionUpdate.validate.
  rewrite (proj2 (fullmatch_status_pattern new_status) Hstatus).
  rewrite update_question_status_eq, Hq. cbv zeta. simpl QuestionUpdate.status.
  rewrite select_question_update_status, Hq. simpl fmap.
  rewrite decide_True by done.
  eexists _, _. split; [done|]. split; [done|]. split; [done|].
  split; [done|]. split; [|split; [done|split; [done|]]].
  - intros x Hx Hne. simpl. apply list_elem_of_fmap. exists x.
    by rewrite decide_False.
  - apply sends_since_with_wire.
Qed.

Lemma update_status_applies_witness :
  ∃ q' s',
    PATCH_question 2 "Answered" moderator triage_sample
      = (Success 200 {| updated_question := Some q' |}, s') ∧
    QuestionRow.status q' = "Answered" ∧
    QuestionRow.answered_at q' = Some "2024-01-01T00:00:02.000000".
Proof.
  destruct (update_status_applies triage_sample 2 "Answered" moderator
              {| QuestionRow.question_id := 2; QuestionRow.user_id := None;
                 QuestionRow.username := "Guest"; QuestionRow.message := "second";
                 QuestionRow.status := "Pending"; QuestionRow.category := "General";
                 QuestionRow.timestamp := "2024-01-01 00:00:02";
                 QuestionRow.answered_at := None |})
    as (q' & s' & Hpatch & Hst & Hat & _); [vm_compute; reflexivity|auto|].
  exists q', s'. split; [exact Hpatch|]. split; [exact Hst|exact Hat].
Defined.

Lemma with_db_same s : with_db (db s) s = s.
Proof. by destruct s. Qed.

Lemma update_status_unknown status answered_at question_id d :
  SQL.select_question question_id d = None →
  SQL.update_status status answered_at question_id d = d.
Proof.
  unfold SQL.select_question, SQL.update_status. intros Hnone.
  destruct d as [qs ans qseq aseq]. simpl in *. f_equal.
  induction qs as [|q l IH]; [done|].
  destruct (decide (QuestionRow.question_id q = question_id)) as [Hq|Hq].
  - by rewrite filter_cons_True in Hnone.
  - rewrite filter_cons_False in Hnone by done. rewrite fmap_cons.
    rewrite decide_False by done. by rewrite IH.
Qed.

(** Property X8. On the store, [update_question_status] for an id that
    sqlite3 can bind and that selects no question still returns True, and
    changes nothing: the caller is not told that no row was updated. *)
Theorem update_question_status_unknown_id s question_id status :
  int64 question_id →
  SQL.select_question question_id (db s) = None →
  QuestionDB.update_question_status question_id status s = (Return true, s).
Proof.
  intros _ Hnone. unfold QuestionDB.update_question_status, bind, gets, modify, ret.
  simpl. by rewrite update_status_unknown, with_db_same.
Qed.

Lemma update_question_status_unknown_id_witness :
  QuestionDB.update_question_status 7 "Answered" triage_sample = (Return true, triage_sample).
Proof.
  apply (update_question_status_unknown_id triage_sample 7 "Answered").
  - vm_compute. split; [discriminate|reflexivity].
  - vm_compute. reflexivity.
Defined.

(** Property X9. Of two status updates of the same question, only the
    second shows, however much time passes between them: the state is the
    one the second update alone gives at its own time. So the question
    ends with the second status, and with [answered_at] at the time of the
    second update when that status is Answered (a repeated Answered moves
    the timestamp on) and null otherwise. *)
Theorem update_question_status_last_wins s question_id status1 status2
    (current_timestamp now : string) :
  int64 question_id →
  let later s0 := with_clocks current_timestamp now s0 in
  let s2 := snd (QuestionDB.update_question_status question_id status2
                   (later (snd (QuestionDB.update_question_status question_id status1 s)))) in
  s2 = snd (QuestionDB.update_question_status question_id status2 (later s)) ∧
  ∀ q, q ∈ questions (db s) → QuestionRow.question_id q = question_id →
       ∃ q', q' ∈ questions (db s2) ∧ written_once q' = written_once q ∧
             QuestionRow.status q' = status2 ∧
             QuestionRow.answered_at q'
               = if decide (status2 = "Answered") then Some now else None.
Proof.
  intros _ later s2.
  assert (Hlast : s2 = snd (QuestionDB.update_question_status question_id status2 (later s))).
  { subst s2 later.
    unfold QuestionDB.update_question_status, bind, gets, modify, ret. simpl.
    unfold with_db, with_clocks, SQL.update_status. simpl. do 2 f_equal.
    rewrite <-list_fmap_compose. apply list_fmap_ext. intros i q _. simpl.
    destruct (decide (QuestionRow.question_id q = question_id)) as [Hq|Hq]; simpl.
    - by rewrite decide_True.
    - by rewrite decide_False. }
  split; [exact Hlast|]. rewrite Hlast. subst later.
  intros q Hq Hid. eexists. split.
  - simpl. apply list_elem_of_fmap. exists q. split; [|done]. by rewrite decide_True.
  - by split.
Qed.

Lemma update_question_status_last_wins_witness :
  ∃ q', q' ∈ questions
               (db (snd (QuestionDB.update_question_status 1 "Answered"
                           (with_clocks "2024-01-01 00:00:09" "2024-01-01T00:00:09.000000"
                              (snd (QuestionDB.update_question_status 1 "Answered"
                                      one_pending_question)))))) ∧
        QuestionRow.status q' = "Answered" ∧
        QuestionRow.answered_at q' = Some "2024-01-01T00:00:09.000000".
Proof.
  assert (Hid : int64 1) by (vm_compute; split; [discriminate|reflexivity]).
  destruct (update_question_status_last_wins one_pending_question 1 "Answered" "Answered"
              "2024-01-01 00:00:09" "2024-01-01T00:00:09.000000" Hid) as [_ Hrow].
  destruct (Hrow {| QuestionRow.question_id := 1; QuestionRow.user_id := None;
                    QuestionRow.username := "Guest"; QuestionRow.message := "first";
                    QuestionRow.status := "Pending"; QuestionRow.category := "General";
                    QuestionRow.timestamp := "2024-01-01 00:00:01";
                    QuestionRow.answered_at := None |})
    as (q' & Hin & _ & Hst & Hat); [by_evaluation|reflexivity|].
  exists q'. split; [exact Hin|]. split; [exact Hst|exact Hat].
Defined.

End writes.

(** ** Further properties of submissions *)

Section submissions.
Implicit Types (s : State) (d : DB).

Lemma reachable_ids_increasing events : ids_increasing (db (run events initial_state)).
Proof.
  apply (run_invariant ids_increasing store_change_ids_increasing).
  repeat split; simpl; try lia; constructor.
Qed.

Lemma head_filter_unique {A} (P : A → Prop) `{!∀ x, Decision (P x)} (l : list A) (a : A) :
  a ∈ l → P a → (∀ x, x ∈ l → P x → x = a) → head (filter P l) = Some a.
Proof.
  intros Hin Hp Huniq.
  destruct (filter P l) as [|x l'] eqn:Hf.
  - exfalso. eapply (not_elem_of_nil a). rewrite <-Hf. by apply list_elem_of_filter.
  - simpl. f_equal. assert (Hx : x ∈ filter P l) by (rewrite Hf; left).
    apply list_elem_of_filter in Hx as [Hpx Hxl]. by apply Huniq.
Qed.

(** Property X10. In any state reached by requests from the initial one,
    an answer of 1 to 2000 characters for a question that is in the store
    is accepted with 201. The stored answer has the next id, the question
    id and message of the body, the clock's timestamp, and as author the
    signed-in user (id and name) or else the body's username, Guest by
    default. It is appended to the answers, the questions are untouched,
    each registered connection is sent one "new_answer" event carrying it,
    and the answers route then lists it, one answer more than before. *)
Theorem submit_answer_then_list events body current_user q :
  let s := run events initial_state in
  (1 ≤ String.length (AnswerCreate.body_message body) ≤ 2000)%nat →
  SQL.select_question (AnswerCreate.body_question_id body) (db s) = Some q →
  ∃ a s',
    POST_answers body current_user s
      = (Success 201 {| submitted_answer_id := AnswerRow.answer_id a;
                        submitted_answer := Some a |}, s') ∧
    a = {| AnswerRow.answer_id := answers_seq (db s) + 1;
           AnswerRow.question_id := AnswerCreate.body_question_id body;
           AnswerRow.user_id := user_id <$> current_user;
           AnswerRow.username :=
             from_option sub (default "Guest" (AnswerCreate.body_username body)) current_user;
           AnswerRow.message := AnswerCreate.body_message body;
           AnswerRow.timestamp := CURRENT_TIMESTAMP s |} ∧
    answers (db s') = answers (db s) ++ [a] ∧
    questions (db s') = questions (db s) ∧
    sends_since s s'
      = attempt s {| type := "new_answer"; data := AnswerData (Some a) |}
          <$> active_connections s ∧
    ∃ listed,
      GET_answers (AnswerCreate.body_question_id body) s' = (Success 200 listed, s') ∧
      a ∈ listed ∧
      length listed = S (length (SQL.select_answers (AnswerCreate.body_question_id body) (db s))).
Proof.
  intros s Hvalid Hq.
  destruct (reachable_ids_increasing events) as (_ & _ & _ & Ha0 & _ & Hab).
  fold s in Ha0, Hab.
  set (qid := AnswerCreate.body_question_id body) in *.
  set (a := {| AnswerRow.answer_id := answers_seq (db s) + 1;
               AnswerRow.question_id := qid; AnswerRow.user_id := _ |}).
  unfold POST_answers, route, AnswerCreate.validate.
  rewrite bool_decide_eq_true_2 by done. rewrite create_answer_eq.
  simpl AnswerCreate.question_id. fold qid. rewrite Hq. cbv zeta.
  simpl AnswerCreate.username. simpl AnswerCreate.message.
  set (d' := (SQL.insert_answer qid _ _ _ _ (db s)).2).
  assert (Hanswers : answers d' = answers (db s) ++ [a]) by done.
  assert (Hlisted : ∀ x, x ∈ SQL.select_answers qid d' ↔
                         (x ∈ answers (db s) ∧ AnswerRow.question_id x = qid) ∨ x = a).
  { intros x. unfold SQL.select_answers. rewrite merge_sort_Permutation, Hanswers.
    rewrite list_elem_of_filter, elem_of_app, list_elem_of_singleton.
    split; [intros [Hx [Hin| ->]]; auto|intros [[Hin Hx]| ->]; auto]. }
  assert (Hcreated : head (filter (λ x, AnswerRow.answer_id x = answers_seq (db s) + 1)
                             (SQL.select_answers qid d')) = Some a).
  { apply head_filter_unique; [apply Hlisted; by right|done|].
    intros x [[Hin _]| ->]%Hlisted Hid; [|done]. exfalso.
    rewrite Forall_fmap, Forall_forall in Hab. specialize (Hab x Hin). simpl in Hab. lia. }
  change (SQL.insert_answer qid (user_id <$> current_user)
            (from_option sub (default "Guest" (AnswerCreate.body_username body)) current_user)
            (AnswerCreate.body_message body) (CURRENT_TIMESTAMP s) (db s)).1
    with (answers_seq (db s) + 1).
  rewrite Hcreated.
  eexists a, _. split; [done|]. split; [done|]. split; [done|]. split; [done|].
  split; [apply sends_since_with_wire|].
  rewrite GET_answers_eq. simpl db.
  assert (Hq' : SQL.select_question qid d' = Some q) by done.
  rewrite Hq'. eexists. split; [done|]. split; [apply Hlisted; by right|].
  unfold SQL.select_answers. rewrite !merge_sort_Permutation, Hanswers, filter_app.
  rewrite filter_cons_True by done. rewrite length_app. simpl. lia.
Qed.

Lemma submit_answer_then_list_witness :
  ∃ a s' listed,
    POST_answers (guest_answer 2 "another") None triage_sample
      = (Success 201 {| submitted_answer_id := AnswerRow.answer_id a;
                        submitted_answer := Some a |}, s') ∧
    GET_answers 2 s' = (Success 200 listed, s') ∧ a ∈ listed.
Proof.
  assert (Hvalid : (1 ≤ String.length (AnswerCreate.body_message (guest_answer 2 "another"))
                      ≤ 2000)%nat) by (vm_compute; lia).
  destruct (submit_answer_then_list
              [ Clock "2024-01-01 00:00:01" "2024-01-01T00:00:01.000000";
                SubmitQuestion (guest_question "first" "General") None;
                Clock "2024-01-01 00:00:02" "2024-01-01T00:00:02.000000";
                SubmitQuestion (guest_question "second" "General") None;
                UpdateStatus 1 "Escalated" moderator;
                SubmitAnswer (guest_answer 1 "reply") None ]
              (guest_answer 2 "another") None
              {| QuestionRow.question_id := 2; QuestionRow.user_id := None;
                 QuestionRow.username := "Guest"; QuestionRow.message := "second";
                 QuestionRow.status := "Pending"; QuestionRow.category := "General";
                 QuestionRow.timestamp := "2024-01-01 00:00:02";
                 QuestionRow.answered_at := None |} Hvalid)
    as (a & s' & Hpost & _ & _ & _ & _ & listed & Hget & Hin & _);
    [vm_compute; reflexivity|].
  by exists a, s', listed.
Defined.

(** Property X11. In any state reached by requests from the initial one,
    a question of 1 to 1000 characters is accepted with 201. The stored
    question has the next id, status Pending, no [answered_at], the
    clock's timestamp, the body's category (General by default), and as
    author the signed-in user (id and name, whatever username the body
    gives) or else no user id and the body's username, Guest by default.
    It is appended to the questions, the answers are untouched, and each
    registered connection is sent one "new_question" event carrying it. *)
Theorem submit_question_stores_author events body current_user :
  let s := run events initial_state in
  (1 ≤ String.length (QuestionCreate.body_message body) ≤ 1000)%nat →
  ∃ q s',
    POST_questions body current_user s
      = (Success 201 {| submitted_question_id := QuestionRow.question_id q;
                        submitted_question := Some q |}, s') ∧
    q = {| QuestionRow.question_id := questions_seq (db s) + 1;
           QuestionRow.user_id := user_id <$> current_user;
           QuestionRow.username :=
             from_option sub (default "Guest" (QuestionCreate.body_username body))
               current_user;
           QuestionRow.message := QuestionCreate.body_message body;
           QuestionRow.status := "Pending";
           QuestionRow.category := default "General" (QuestionCreate.body_category body);
           QuestionRow.timestamp := CURRENT_TIMESTAMP s;
           QuestionRow.answered_at := None |} ∧
    questions (db s') = questions (db s) ++ [q] ∧
    answers (db s') = answers (db s) ∧
    sends_since s s'
      = attempt s {| type := "new_question"; data := QuestionData (Some q) |}
          <$> active_connections s.
Proof.
  intros s Hvalid.
  destruct (reachable_ids_increasing events) as (Hq0 & _ & Hqb & _). fold s in Hq0, Hqb.
  set (q := {| QuestionRow.question_id := questions_seq (db s) + 1;
               QuestionRow.user_id := _ |}).
  unfold POST_questions, route, QuestionCreate.validate.
  rewrite bool_decide_eq_true_2 by done. rewrite create_question_eq. cbv zeta.
  simpl QuestionCreate.username. simpl QuestionCreate.message.
  simpl QuestionCreate.category.
  set (d' := (SQL.insert_question _ _ _ _ _ (db s)).2).
  assert (Hsel : SQL.select_question (questions_seq (db s) + 1) d' = Some q).
  { unfold SQL.select_question.
    apply head_filter_unique; [|done|].
    - simpl. apply elem_of_app. right. by apply list_elem_of_singleton.
    - simpl. intros x [Hin| ->%list_elem_of_singleton]%elem_of_app Hid; [|done].
      exfalso. rewrite Forall_fmap, Forall_forall in Hqb.
      specialize (Hqb x Hin). simpl in Hqb. lia. }
  change (SQL.insert_question (user_id <$> current_user)
            (from_option sub (default "Guest" (QuestionCreate.body_username body))
               current_user)
            (QuestionCreate.body_message body)
            (default "General" (QuestionCreate.body_category body))
            (CURRENT_TIMESTAMP s) (db s)).1
    with (questions_seq (db s) + 1).
  rewrite Hsel.
  eexists q, _. split; [done|]. split; [done|]. split; [done|]. split; [done|].
  apply sends_since_with_wire.
Qed.

Lemma submit_question_stores_author_witness :
  ∃ q s',
    POST_questions (guest_question "third" "Billing") (Some moderator) triage_sample
      = (Success 201 {| submitted_question_id := QuestionRow.question_id q;
                        submitted_question := Some q |}, s') ∧
    QuestionRow.username q = "admin" ∧ QuestionRow.user_id q = Some 1.
Proof.
  assert (Hvalid : (1 ≤ String.length
                          (QuestionCreate.body_message (guest_question "third" "Billing"))
                      ≤ 1000)%nat) by (vm_compute; lia).
  destruct (submit_question_stores_author
              [ Clock "2024-01-01 00:00:01" "2024-01-01T00:00:01.000000";
                SubmitQuestion (guest_question "first" "General") None;
                Clock "2024-01-01 00:00:02" "2024-01-01T00:00:02.000000";
                SubmitQuestion (guest_question "second" "General") None;
                UpdateStatus 1 "Escalated" moderator;
                SubmitAnswer (guest_answer 1 "reply") None ]
              (guest_question "third" "Billing") (Some moderator) Hvalid)
    as (q & s' & Hpost & -> & _).
  eexists _, s'. split; [exact Hpost|]. split; reflexivity.
Defined.

(** Property X12. A question whose message is empty or longer than 1000
    characters, and an answer whose message is empty or longer than 2000,
    is refused with 422 before the handler runs: nothing is stored and
    nothing is sent, whether or not the question of the answer exists. *)
Theorem invalid_messages_rejected s current_user :
  (∀ body, ¬ (1 ≤ String.length (QuestionCreate.body_message body) ≤ 1000)%nat →
           POST_questions body current_user s = (Failure ValidationError "message", s)) ∧
  (∀ body, ¬ (1 ≤ String.length (AnswerCreate.body_message body) ≤ 2000)%nat →
           POST_answers body current_user s = (Failure ValidationError "message", s)).
Proof.
  split; intros body Hlen.
  - unfold POST_questions, route, QuestionCreate.validate.
    by rewrite bool_decide_eq_false_2.
  - unfold POST_answers, route, AnswerCreate.validate.
    by rewrite bool_decide_eq_false_2.
Qed.

Lemma invalid_messages_rejected_witness :
  POST_questions (guest_question "" "General") None triage_sample
    = (Failure ValidationError "message", triage_sample) ∧
  POST_answers (guest_answer 1 "") None triage_sample
    = (Failure ValidationError "message", triage_sample).
Proof.
  destruct (invalid_messages_rejected triage_sample None) as [Hq Ha].
  split; [apply Hq | apply Ha]; vm_compute; lia.
Defined.

End submissions.

(** ** Further properties of the connections *)

Section connections.
Implicit Types (s : State) (message : Message) (websocket : WebSocket).

Lemma connect_eq websocket s :
  ConnectionManager.connect websocket s
  = (Return tt, with_active_connections (active_connections s ++ [websocket]) s).
Proof. reflexivity. Qed.

(** Property X13. Registering never fails and puts the connection last in
    the live set. A publish after it reaches the connections registered
    before exactly as it would have without the newcomer, and then, when
    the newcomer's transport is open, delivers the event to it. *)
Theorem connect_then_broadcast websocket message s :
  websocket ∉ closed s →
  let s1 := snd (ConnectionManager.connect websocket s) in
  fst (ConnectionManager.connect websocket s) = Return tt ∧
  active_connections s1 = active_connections s ++ [websocket] ∧
  sends_since s1 (snd (ConnectionManager.broadcast message s1))
  = sends_since s (snd (ConnectionManager.broadcast message s))
    ++ [ {| target := websocket; payload := message; failure := None |} ].
Proof.
  intros Hopen s1. subst s1. rewrite connect_eq. simpl.
  split; [done|]. split; [done|].
  rewrite !sends_since_broadcast. unfold attempt. simpl. rewrite fmap_app. simpl.
  by rewrite decide_False.
Qed.

Lemma connect_then_broadcast_witness :
  let s1 := snd (ConnectionManager.connect 4%nat three_observers_one_closed) in
  active_connections s1 = [1%nat; 2%nat; 3%nat; 4%nat] ∧
  {| target := 4%nat; payload := sample_message; failure := None |}
    ∈ sends_since s1 (snd (ConnectionManager.broadcast sample_message s1)).
Proof.
  assert (Hopen : 4%nat ∉ closed three_observers_one_closed) by by_evaluation.
  destruct (connect_then_broadcast 4%nat sample_message three_observers_one_closed Hopen)
    as (_ & Hactive & Hsends).
  split; [exact Hactive|]. rewrite Hsends. apply elem_of_app. right. left.
Defined.

Lemma list_remove_elem_of websocket other (l : list WebSocket) :
  other ≠ websocket → other ∈ l → other ∈ list_remove websocket l.
Proof.
  intros Hne. induction l as [|y l IH]; simpl; [done|].
  intros [->|Hin]%elem_of_cons.
  - rewrite decide_False by done. left.
  - destruct (decide (y = websocket)); [done|]. right. by apply IH.
Qed.

(** Property X14. After an observer that was registered once is
    deregistered, a publish makes no send to it at all, while every other
    registered observer is still sent the event. *)
Theorem disconnect_then_broadcast websocket message s :
  NoDup (active_connections s) →
  websocket ∈ active_connections s →
  let s1 := snd (ConnectionManager.disconnect websocket s) in
  let sent := sends_since s1 (snd (ConnectionManager.broadcast message s1)) in
  fst (ConnectionManager.disconnect websocket s) = Return tt ∧
  (∀ x, x ∈ sent → target x ≠ websocket) ∧
  (∀ other, other ∈ active_connections s → other ≠ websocket →
            attempt s message other ∈ sent).
Proof.
  intros Hnodup Hin s1 sent. subst sent s1. rewrite disconnect_eq, decide_True by done.
  simpl. rewrite sends_since_broadcast. simpl.
  split; [done|]. split.
  - intros x (ws & -> & Hws)%list_elem_of_fmap. simpl. intros ->.
    by apply (list_remove_NoDup websocket (active_connections s)).
  - intros other Hother Hne. apply list_elem_of_fmap. exists other. split; [done|].
    by apply list_remove_elem_of.
Qed.

Lemma disconnect_then_broadcast_witness :
  let s1 := snd (ConnectionManager.disconnect 2%nat three_observers_one_closed) in
  let sent := sends_since s1 (snd (ConnectionManager.broadcast sample_message s1)) in
  (∀ x, x ∈ sent → target x ≠ 2%nat) ∧
  attempt three_observers_one_closed sample_message 3%nat ∈ sent.
Proof.
  assert (Hnodup : NoDup (active_connections three_observers_one_closed)) by by_evaluation.
  assert (Hin : 2%nat ∈ active_connections three_observers_one_closed) by by_evaluation.
  destruct (disconnect_then_broadcast 2%nat sample_message three_observers_one_closed
              Hnodup Hin) as (_ & Hnone & Hothers).
  split; [exact Hnone|]. apply Hothers; by_evaluation.
Defined.

Lemma list_remove_snoc websocket (l : list WebSocket) :
  websocket ∉ l → list_remove websocket (l ++ [websocket]) = l.
Proof.
  induction l as [|y l IH]; simpl; intros Hnot.
  - by rewrite decide_True.
  - apply not_elem_of_cons in Hnot as [Hne Hnot].
    rewrite decide_False by done. by rewrite IH.
Qed.

Lemma receive_loop_texts websocket (texts : list string) (rest : list Received) s :
  receive_loop websocket ((Text <$> texts) ++ rest) s = receive_loop websocket rest s.
Proof. induction texts as [|t l IH]; [done|]. exact IH. Qed.

(** Property X15. For a connection that is not yet in the live set, the
    WebSocket endpoint keeps it registered, last in the live set, while
    text frames arrive, and those frames change nothing. When the receive
    then ends in a disconnect, or in any other exception, the endpoint
    returns without raising and the whole state is as it was before the
    connection came. *)
Theorem websocket_endpoint_round_trip websocket (texts : list string) (rest : list Received) s :
  websocket ∉ active_connections s →
  websocket_endpoint websocket (Text <$> texts) s
    = (Return false, with_active_connections (active_connections s ++ [websocket]) s) ∧
  websocket_endpoint websocket ((Text <$> texts) ++ WebSocketDisconnect :: rest) s
    = (Return true, s) ∧
  ∀ e, websocket_endpoint websocket ((Text <$> texts) ++ ReceiveError e :: rest) s
       = (Return true, s).
Proof.
  intros Hnew.
  assert (Hleave : ConnectionManager.disconnect websocket
                     (with_active_connections (active_connections s ++ [websocket]) s)
                   = (Return tt, s)).
  { rewrite disconnect_eq. simpl. rewrite decide_True.
    - rewrite list_remove_snoc by done. by destruct s.
    - apply elem_of_app. right. left. }
  assert (Hloop : ∀ inbound,
            websocket_endpoint websocket inbound s
            = receive_loop websocket inbound
                (with_active_connections (active_connections s ++ [websocket]) s)).
  { intros inbound. unfold websocket_endpoint, bind. by rewrite connect_eq. }
  rewrite !Hloop. split; [|split].
  - rewrite <-(app_nil_r (Text <$> texts)), receive_loop_texts. done.
  - rewrite receive_loop_texts. simpl. unfold bind. by rewrite Hleave.
  - intros e. rewrite Hloop, receive_loop_texts. simpl.
    unfold bind, log, ret. by rewrite Hleave.
Qed.

Lemma websocket_endpoint_round_trip_witness :
  websocket_endpoint 4%nat [Text "ping"; Text "ping"; WebSocketDisconnect]
    three_observers_one_closed
  = (Return true, three_observers_one_closed).
Proof.
  assert (Hnew : 4%nat ∉ active_connections three_observers_one_closed) by by_evaluation.
  exact (proj1 (proj2 (websocket_endpoint_round_trip 4%nat ["ping"; "ping"] []
                         three_observers_one_closed Hnew))).
Defined.

Lemma filter_target_attempts websocket message s (l : list WebSocket) :
  NoDup l → websocket ∈ l →
  filter (λ x, target x = websocket) (attempt s message <$> l) = [attempt s message websocket].
Proof.
  induction 1 as [|y l Hy Hl IH]; [by intros ?%not_elem_of_nil|].
  rewrite fmap_cons. intros [->|Hin]%elem_of_cons.
  - rewrite filter_cons_True by done. f_equal.
    clear IH Hl. induction l as [|z l IH]; [done|].
    apply not_elem_of_cons in Hy as [Hne Hy]. rewrite fmap_cons.
    rewrite filter_cons_False by (simpl; congruence). by apply IH.
  - rewrite filter_cons_False; [by apply IH|]. simpl. intros ->. done.
Qed.

(** Property X16. Events published one after the other reach each
    observer in that order: for an observer registered once, the payloads
    of the sends made to it during a run of publishes are the published
    events, in order, none missing and none twice. *)
Theorem publish_order_per_observer websocket (messages : list Message) s :
  NoDup (active_connections s) →
  websocket ∈ active_connections s →
  payload <$> filter (λ x, target x = websocket)
                (sends_since s (snd (publish_all messages s)))
  = messages.
Proof.
  intros Hnodup Hin. rewrite publish_all_eq. unfold sends_since. simpl.
  rewrite drop_app_length.
  induction messages as [|m l IH]; [done|].
  rewrite bind_cons, filter_app, fmap_app, IH.
  by rewrite filter_target_attempts.
Qed.

Lemma publish_order_per_observer_witness :
  payload <$> filter (λ x, target x = 3%nat)
                (sends_since three_observers_one_closed
                   (snd (publish_all
                           [ sample_message;
                             {| type := "new_answer"; data := AnswerData None |} ]
                           three_observers_one_closed)))
  = [ sample_message; {| type := "new_answer"; data := AnswerData None |} ].
Proof.
  apply (publish_order_per_observer 3%nat
           [ sample_message; {| type := "new_answer"; data := AnswerData None |} ]
           three_observers_one_closed); by_evaluation.
Defined.

End connections.

(** ** Properties of the accounts *)

Section accounts.
Context (auth : Auth).
Implicit Types (u : UserState) (user_data : UserCreate.t).

Lemma select_by_username_None username u :
  UserSQL.select_by_username username u = None ↔
  ∀ r, r ∈ users u → UserRow.username r ≠ username.
Proof.
  unfold UserSQL.select_by_username. split.
  - intros Hnone r Hr Heq. destruct (filter _ (users u)) as [|x l] eqn:Hf; [|done].
    eapply (not_elem_of_nil r). rewrite <-Hf. by apply list_elem_of_filter.
  - intros Hall. destruct (filter _ (users u)) as [|x l] eqn:Hf; [done|].
    assert (Hx : x ∈ filter (λ r, UserRow.username r = username) (users u))
      by (rewrite Hf; left).
    apply list_elem_of_filter in Hx as [Hx Hin]. by destruct (Hall x Hin).
Qed.

Lemma select_by_email_None email u :
  UserSQL.select_by_email email u = None ↔
  ∀ r, r ∈ users u → UserRow.email r ≠ email.
Proof.
  unfold UserSQL.select_by_email. split.
  - intros Hnone r Hr Heq. destruct (filter _ (users u)) as [|x l] eqn:Hf; [|done].
    eapply (not_elem_of_nil r). rewrite <-Hf. by apply list_elem_of_filter.
  - intros Hall. destruct (filter _ (users u)) as [|x l] eqn:Hf; [done|].
    assert (Hx : x ∈ filter (λ r, UserRow.email r = email) (users u))
      by (rewrite Hf; left).
    apply list_elem_of_filter in Hx as [Hx Hin]. by destruct (Hall x Hin).
Qed.

Lemma conflicts_iff username email u :
  UserSQL.conflicts username email u ↔
  is_Some (UserSQL.select_by_username username u) ∨
  is_Some (UserSQL.select_by_email email u).
Proof.
  unfold UserSQL.conflicts. rewrite Exists_exists. split.
  - intros (r & Hr & [Hn|He]).
    + left. apply not_eq_None_Some. rewrite select_by_username_None. intros H.
      by apply (H r Hr).
    + right. apply not_eq_None_Some. rewrite select_by_email_None. intros H.
      by apply (H r Hr).
  - intros [[r Hr]|[r Hr]].
    + unfold UserSQL.select_by_username in Hr.
      apply head_Some_elem_of, list_elem_of_filter in Hr as [? ?]. exists r. auto.
    + unfold UserSQL.select_by_email in Hr.
      apply head_Some_elem_of, list_elem_of_filter in Hr as [? ?]. exists r. auto.
Qed.

Lemma inserted_unique username email password is_admin u :
  ¬ UserSQL.conflicts username email u →
  users_unique u → users_unique (UserSQL.inserted username email password is_admin u).
Proof.
  intros Hfree (Hseq & Hn & He & Hi & Hb). rewrite conflicts_iff in Hfree.
  assert (Hname : UserSQL.select_by_username username u = None).
  { apply eq_None_not_Some. tauto. }
  assert (Hmail : UserSQL.select_by_email email u = None).
  { apply eq_None_not_Some. tauto. }
  rewrite select_by_username_None in Hname. rewrite select_by_email_None in Hmail.
  unfold users_unique. simpl. rewrite !fmap_app. simpl.
  split; [lia|]. split; [|split; [|split]].
  - apply NoDup_app. split; [done|]. split; [|apply NoDup_singleton].
    intros x (r & -> & Hr)%list_elem_of_fmap Hx%list_elem_of_singleton.
    by apply (Hname r Hr).
  - apply NoDup_app. split; [done|]. split; [|apply NoDup_singleton].
    intros x (r & -> & Hr)%list_elem_of_fmap Hx%list_elem_of_singleton.
    by apply (Hmail r Hr).
  - apply NoDup_app. split; [done|]. split; [|apply NoDup_singleton].
    intros x (r & -> & Hr)%list_elem_of_fmap Hx%list_elem_of_singleton.
    rewrite Forall_forall in Hb. specialize (Hb r Hr). simpl in Hb. lia.
  - apply Forall_app. split.
    + eapply Forall_impl; [exact Hb|]. intros r ?. simpl in *. lia.
    + apply Forall_singleton. simpl. lia.
Qed.

Lemma register_eq user_data u :
  register auth user_data u
  = match UserSQL.select_by_username (UserCreate.username user_data) u with
    | Some _ => (inl (AccountHTTPException 400 "Username already registered" []), u)
    | None =>
        match UserSQL.select_by_email (UserCreate.email user_data) u with
        | Some _ => (inl (AccountHTTPException 400 "Email already registered" []), u)
        | None =>
            let u' := UserSQL.inserted (UserCreate.username user_data)
                        (UserCreate.email user_data)
                        (get_password_hash auth (UserCreate.password user_data)) false u in
            if bool_decide (users_seq u + 1 = 0) then
              (inl (AccountHTTPException 500 "Failed to create user" []), u')
            else
              match UserSQL.select_by_username (UserCreate.username user_data) u' with
              | Some r =>
                  (inr {| access_token := create_access_token auth (user_claims r);
                          token_type := "bearer"; user := user_info r |}, u')
              | None => (inl (TypeError "'NoneType' object is not subscriptable"), u')
              end
        end
    end.
Proof.
  unfold register, accounts_bind, UserDB.get_user_by_username, UserDB.get_user_by_email,
    UserDB.create_user, UserSQL.insert_user.
  destruct (UserSQL.select_by_username (UserCreate.username user_data) u) as [r|] eqn:Hn;
    [done|].
  destruct (UserSQL.select_by_email (UserCreate.email user_data) u) as [r|] eqn:He;
    [done|].
  rewrite decide_False.
  - simpl. destruct (bool_decide (users_seq u + 1 = 0)); [done|].
    destruct (UserSQL.select_by_username _ (UserSQL.inserted _ _ _ _ _)); reflexivity.
  - rewrite conflicts_iff, Hn, He. intros [[? [=]]|[? [=]]].
Qed.

Lemma account_step_unique u call : users_unique u → users_unique (account_step auth u call).
Proof.
  intros Hu. destruct call as [|ct|un em pw|user_data|credentials|current_user]; simpl.
  - unfold init_db, UserSQL.insert_or_ignore.
    destruct (decide (UserSQL.conflicts _ _ u)); [|by apply inserted_unique].
    destruct Hu as (Hseq & Hn & He & Hi & Hb). unfold users_unique. simpl.
    split; [lia|]. do 3 (split; [done|]).
    eapply Forall_impl; [exact Hb|]. intros r ?. simpl in *. lia.
  - done.
  - unfold UserDB.create_user, UserSQL.insert_user.
    destruct (decide (UserSQL.conflicts un em u)); simpl; [done|].
    by apply inserted_unique.
  - rewrite register_eq.
    destruct (UserSQL.select_by_username _ u) eqn:Hn; [done|].
    destruct (UserSQL.select_by_email _ u) eqn:He; [done|]. cbv zeta.
    assert (Hu' : users_unique (UserSQL.inserted (UserCreate.username user_data)
                     (UserCreate.email user_data)
                     (get_password_hash auth (UserCreate.password user_data)) false u)).
    { apply inserted_unique; [|done].
      rewrite conflicts_iff, Hn, He. intros [[? [=]]|[? [=]]]. }
    destruct (bool_decide _); [done|].
    by destruct (UserSQL.select_by_username _ (UserSQL.inserted _ _ _ _ _)).
  - unfold login, accounts_bind, UserDB.get_user_by_username.
    destruct (UserSQL.select_by_username _ u) as [r|]; [|done].
    by destruct (verify_password auth _ _).
  - unfold get_current_user_info, accounts_bind, UserDB.get_user_by_username.
    by destruct (UserSQL.select_by_username _ u).
Qed.

(** Property X17. Whatever is called on the accounts ([init_db],
    [create_user], register, login, the profile route), in whatever order,
    usernames stay pairwise distinct, and so do emails and user ids. *)
Theorem users_stay_unique (calls : list AccountCall) u :
  users_unique u → users_unique (account_run auth calls u).
Proof.
  revert u. unfold account_run.
  induction calls as [|call calls IH]; intros u Hu; simpl; [done|].
  apply IH. by apply account_step_unique.
Qed.

Lemma select_inserted_user username email password is_admin u :
  UserSQL.select_by_username username u = None →
  UserSQL.select_by_username username (UserSQL.inserted username email password is_admin u)
  = Some {| UserRow.user_id := users_seq u + 1; UserRow.username := username;
            UserRow.email := email; UserRow.password := password;
            UserRow.is_admin := is_admin;
            UserRow.created_at := users_CURRENT_TIMESTAMP u |}.
Proof.
  unfold UserSQL.select_by_username. simpl. intros Hnone. rewrite filter_app.
  destruct (filter _ (users u)); [|done]. by rewrite filter_cons_True.
Qed.

(** Property X18. Registering a username and an email that are both free
    succeeds: the account is appended with the next id, the hash of the
    password and [is_admin] false, whatever [is_admin] the request asked
    for, and the answer is a bearer token made from that account. The
    500 branch of the handler is not taken. *)
Theorem register_fresh user_data u :
  0 ≤ users_seq u →
  UserSQL.select_by_username (UserCreate.username user_data) u = None →
  UserSQL.select_by_email (UserCreate.email user_data) u = None →
  let r := {| UserRow.user_id := users_seq u + 1;
              UserRow.username := UserCreate.username user_data;
              UserRow.email := UserCreate.email user_data;
              UserRow.password := get_password_hash auth (UserCreate.password user_data);
              UserRow.is_admin := false;
              UserRow.created_at := users_CURRENT_TIMESTAMP u |} in
  ∃ u',
    register auth user_data u
      = (inr {| access_token :=
                  create_access_token auth
                    {| sub := UserCreate.username user_data; user_id := users_seq u + 1;
                       is_admin := false |};
                token_type := "bearer";
                user := {| info_user_id := users_seq u + 1;
                           info_username := UserCreate.username user_data;
                           info_email := UserCreate.email user_data;
                           info_is_admin := false |} |}, u') ∧
    users u' = users u ++ [r] ∧
    UserSQL.select_by_username (UserCreate.username user_data) u' = Some r.
Proof.
  intros Hseq Hn He r. rewrite register_eq, Hn, He. cbv zeta.
  rewrite bool_decide_eq_false_2 by lia.
  rewrite select_inserted_user by done. eexists. split; [done|]. split; [done|].
  by apply select_inserted_user.
Qed.

(** Property X19. Registering a username that is taken is refused with
    400 "Username already registered", and a free username with an email
    that is taken with 400 "Email already registered"; in both cases the
    accounts are left as they were. *)
Theorem register_taken user_data u :
  (is_Some (UserSQL.select_by_username (UserCreate.username user_data) u) →
   register auth user_data u
   = (inl (AccountHTTPException 400 "Username already registered" []), u)) ∧
  (UserSQL.select_by_username (UserCreate.username user_data) u = None →
   is_Some (UserSQL.select_by_email (UserCreate.email user_data) u) →
   register auth user_data u
   = (inl (AccountHTTPException 400 "Email already registered" []), u)).
Proof.
  split.
  - intros [r Hr]. by rewrite register_eq, Hr.
  - intros Hn [r Hr]. by rewrite register_eq, Hn, Hr.
Qed.

Lemma login_eq credentials u :
  login auth credentials u
  = (match UserSQL.select_by_username (UserLogin.username credentials) u with
     | Some r =>
         if verify_password auth (UserLogin.password credentials) (UserRow.password r) then
           inr {| access_token := create_access_token auth (user_claims r);
                  token_type := "bearer"; user := user_info r |}
         else inl (AccountHTTPException 401 "Incorrect username or password"
                     [("WWW-Authenticate", "Bearer")])
     | None => inl (AccountHTTPException 401 "Incorrect username or password"
                      [("WWW-Authenticate", "Bearer")])
     end, u).
Proof.
  unfold login, accounts_bind, UserDB.get_user_by_username.
  destruct (UserSQL.select_by_username _ u) as [r|]; [|done].
  by destruct (verify_password auth _ _).
Qed.

(** Property X20. After a successful registration, logging in with the
    same username succeeds when the password verifies against the stored
    hash, with a bearer token for the registered user, and is refused with
    401 when it does not; and the profile route, asked with the claims of
    the registered user, returns that user. Neither call changes the
    accounts. *)
Theorem register_then_login user_data (password : string) u :
  0 ≤ users_seq u →
  UserSQL.select_by_username (UserCreate.username user_data) u = None →
  UserSQL.select_by_email (UserCreate.email user_data) u = None →
  ∃ token u',
    register auth user_data u = (inr token, u') ∧
    (verify_password auth password
       (get_password_hash auth (UserCreate.password user_data)) = true →
     ∃ token',
       login auth {| UserLogin.username := UserCreate.username user_data;
                     UserLogin.password := password |} u' = (inr token', u') ∧
       token_type token' = "bearer" ∧
       user token' = user token) ∧
    (verify_password auth password
       (get_password_hash auth (UserCreate.password user_data)) = false →
     login auth {| UserLogin.username := UserCreate.username user_data;
                   UserLogin.password := password |} u'
     = (inl (AccountHTTPException 401 "Incorrect username or password"
               [("WWW-Authenticate", "Bearer")]), u')) ∧
    get_current_user_info
      {| sub := UserCreate.username user_data; user_id := info_user_id (user token);
         is_admin := false |} u'
    = (inr (user token), u').
Proof.
  intros Hseq Hn He.
  rewrite register_eq, Hn, He. cbv zeta.
  rewrite bool_decide_eq_false_2 by lia.
  rewrite select_inserted_user by done. eexists _, _. split; [done|].
  split; [|split].
  - intros Hverify. rewrite login_eq. simpl UserLogin.username.
    rewrite select_inserted_user by done. simpl. rewrite Hverify. by eexists.
  - intros Hverify. rewrite login_eq. simpl UserLogin.username.
    rewrite select_inserted_user by done. simpl. by rewrite Hverify.
  - unfold get_current_user_info, accounts_bind, UserDB.get_user_by_username.
    simpl sub. by rewrite select_inserted_user.
Qed.

(** Property X21. Login changes nothing, and it fails in one way only:
    an unknown username and a password that does not verify both get 401
    "Incorrect username or password" with the WWW-Authenticate: Bearer
    header. *)
Theorem login_fails_alike credentials u :
  snd (login auth credentials u) = u ∧
  ∀ e, fst (login auth credentials u) = inl e →
       e = AccountHTTPException 401 "Incorrect username or password"
             [("WWW-Authenticate", "Bearer")].
Proof.
  rewrite login_eq. simpl. split; [done|].
  destruct (UserSQL.select_by_username _ u) as [r|]; [|by intros e [= <-]].
  destruct (verify_password auth _ _); [done|by intros e [= <-]].
Qed.

End accounts.

Lemma users_stay_unique_witness :
  users_unique
    (account_run sample_auth
       [ CallInitDb; CallRegister sample_user; CallRegister sample_user;
         CallCreateUser "bob" "alice@example.com" "x"; CallInitDb ]
       no_users).
Proof.
  apply (users_stay_unique sample_auth).
  unfold users_unique. simpl. repeat split; try lia; constructor.
Defined.

Lemma register_fresh_witness :
  ∃ u', fst (register sample_auth sample_user (init_db no_users))
        = inr {| access_token := "alice"; token_type := "bearer";
                 user := {| info_user_id := 2; info_username := "alice";
                            info_email := "alice@example.com";
                            info_is_admin := false |} |} ∧
        snd (register sample_auth sample_user (init_db no_users)) = u'.
Proof.
  destruct (register_fresh sample_auth sample_user (init_db no_users))
    as (u' & Hreg & _); [vm_compute; discriminate|reflexivity|reflexivity|].
  exists u'. by rewrite Hreg.
Defined.

Lemma register_taken_witness :
  register sample_auth sample_user
    (snd (register sample_auth sample_user (init_db no_users)))
  = (inl (AccountHTTPException 400 "Username already registered" []),
     snd (register sample_auth sample_user (init_db no_users))).
Proof.
  refine (proj1 (register_taken sample_auth sample_user
                   (snd (register sample_auth sample_user (init_db no_users)))) _).
  vm_compute. by eexists.
Defined.

Lemma register_then_login_witness :
  ∃ token token' u',
    register sample_auth sample_user no_users = (inr token, u') ∧
    login sample_auth {| UserLogin.username := "alice"; UserLogin.password := "secret1" |} u'
    = (inr token', u') ∧
    user token' = user token.
Proof.
  destruct (register_then_login sample_auth sample_user "secret1" no_users)
    as (token & u' & Hreg & Hlogin & _); [vm_compute; discriminate|reflexivity|reflexivity|].
  destruct Hlogin as (token' & Hlogin & _ & Huser); [reflexivity|].
  exists token, token', u'. split; [exact Hreg|]. split; [exact Hlogin|exact Huser].
Defined.

Lemma login_fails_alike_witness :
  fst (login sample_auth {| UserLogin.username := "admin"; UserLogin.password := "guess" |}
         (init_db no_users))
  = inl (AccountHTTPException 401 "Incorrect username or password"
           [("WWW-Authenticate", "Bearer")]).
Proof.
  destruct (login_fails_alike sample_auth
              {| UserLogin.username := "admin"; UserLogin.password := "guess" |}
              (init_db no_users)) as [_ Hfail].
  destruct (fst (login sample_auth _ _)) as [e|token] eqn:Hlogin.
  - by rewrite (Hfail e eq_refl).
  - vm_compute in Hlogin. discriminate Hlogin.
Defined.

(** ** Properties of [init_db] *)

Section init_db.
Implicit Types (u : UserState).

Lemma inserted_conflicts username email password is_admin u :
  UserSQL.conflicts username email (UserSQL.inserted username email password is_admin u).
Proof.
  unfold UserSQL.conflicts. simpl. apply Exists_app. right. apply Exists_cons_hd. by left.
Qed.

(** Property X22. Start-up is repeatable as far as the accounts go:
    running [init_db] again leaves the rows as the first run left them,
    and no run alters or drops an account that is there. On an empty
    table it creates the one account "admin", with [is_admin] set; when
    the username admin or the email admin@example.com is already taken it
    creates nothing. Every run moves the AUTOINCREMENT counter on by one,
    also when the row is ignored. *)
Theorem init_db_repeatable u :
  users (init_db (init_db u)) = users (init_db u) ∧
  users_seq (init_db u) = users_seq u + 1 ∧
  users u `prefix_of` users (init_db u) ∧
  (users u = [] →
   ∃ r, users (init_db u) = [r] ∧ UserRow.username r = "admin" ∧ UserRow.is_admin r = true) ∧
  (UserSQL.conflicts "admin" "admin@example.com" u → users (init_db u) = users u).
Proof.
  unfold init_db, UserSQL.insert_or_ignore.
  destruct (decide (UserSQL.conflicts "admin" "admin@example.com" u)) as [Hc|Hc].
  - rewrite decide_True by done. split; [done|]. split; [done|]. split; [done|].
    split; [|done].
    intros Hnil. unfold UserSQL.conflicts in Hc. rewrite Hnil in Hc.
    by apply Exists_nil in Hc.
  - rewrite decide_True by apply inserted_conflicts.
    split; [done|]. split; [done|]. split; [by apply prefix_app_r|]. split; [|done].
    intros Hnil. simpl. rewrite Hnil. by eexists.
Qed.

Lemma init_db_repeatable_witness :
  (∃ r, users (init_db no_users) = [r] ∧ UserRow.username r = "admin" ∧
        UserRow.is_admin r = true) ∧
  users (init_db (init_db no_users)) = users (init_db no_users) ∧
  users_seq (init_db (init_db no_users)) = 2.
Proof.
  destruct (init_db_repeatable no_users) as (Htwice & _ & _ & Hempty & _).
  destruct (init_db_repeatable (init_db no_users)) as (_ & Hseq & _).
  split; [apply Hempty; reflexivity|]. split; [exact Htwice|]. rewrite Hseq. reflexivity.
Defined.

End init_db.

(** ** Further properties of the suggestion service *)

Section mock_answers.
Import RAGService.

(** Rounding to hundredths stays between two hundredths that bound the
    value. *)
Lemma round2_between (lo hi : Z) (x : Q) :
  (inject_Z lo / 100 <= x <= inject_Z hi / 100)%Q →
  ∃ n, lo ≤ n ≤ hi ∧ round2 x = (inject_Z n / 100)%Q.
Proof.
  unfold Qdiv. change (/ 100)%Q with (1 # 100)%Q. intros [Hlo Hhi]. unfold round2.
  set (y := (x * 100)%Q). set (f := Qfloor y).
  assert (Hy : (inject_Z lo <= y <= inject_Z hi)%Q) by (unfold y; split; lra).
  assert (Hf0 : lo ≤ f).
  { rewrite <-(Qfloor_Z lo). apply Qfloor_resp_le, Hy. }
  assert (Hfy : (inject_Z f <= y)%Q) by apply Qfloor_le.
  assert (Hf1 : f ≤ hi).
  { rewrite Zle_Qle. lra. }
  assert (Hhalf : (1 # 2 <= y - inject_Z f)%Q → f + 1 ≤ hi).
  { intros Hr. assert (Hlt : f < hi); [|lia]. rewrite Zlt_Qlt. lra. }
  eexists. split; [|reflexivity].
  destruct (y - inject_Z f ?= 1 # 2)%Q eqn:Hc.
  - apply Qeq_alt in Hc. assert (f + 1 ≤ hi) by (apply Hhalf; lra).
    destruct (Z.even f); lia.
  - lia.
  - apply Qgt_alt in Hc. assert (f + 1 ≤ hi) by (apply Hhalf; lra). lia.
Qed.

(** Property X23. Every suggestion, from the chain or from the mock, has
    a confidence that is a whole number of hundredths between 0.60 and
    0.85, and repeats the question it was asked; the call never raises and
    leaves the state alone. *)
Theorem suggestion_confidence_grid self question bits s :
  ∃ suggestion n,
    get_suggested_answer self question bits s = (Return suggestion, s) ∧
    RAGService.question suggestion = question ∧
    60 ≤ n ≤ 85 ∧
    confidence suggestion == inject_Z n / 100.
Proof.
  assert (Hmock : ∃ n, 60 ≤ n ≤ 85 ∧
            confidence (_get_mock_answer question bits) == inject_Z n / 100 ∧
            RAGService.question (_get_mock_answer question bits) = question).
  { unfold _get_mock_answer.
    destruct (first_keyword (lower question) mock_responses); simpl.
    - destruct (round2_between 65 85 (uniform (65 # 100) (85 # 100) bits))
        as (n & Hn & ->).
      + destruct (uniform_between (65 # 100) (85 # 100) bits) as [Hlo Hhi]; [lra|].
        unfold Qdiv, inject_Z. change (/ 100)%Q with (1 # 100)%Q. split; lra.
      + exists n. split; [lia|]. split; [reflexivity|done].
    - exists 60. split; [lia|]. split; [reflexivity|done]. }
  rewrite get_suggested_answer_eq.
  destruct (llm self) as [chain|].
  - destruct (chain question).
    + eexists _, 85. split; [done|]. split; [done|]. split; [lia|]. reflexivity.
    + destruct Hmock as (n & Hn & Hc & Hq).
      eexists _, n. split; [done|]. split; [done|]. split; [lia|done].
  - destruct Hmock as (n & Hn & Hc & Hq).
      eexists _, n. split; [done|]. split; [done|]. split; [lia|done].
Qed.

Lemma prefix_inv (keyword s : string) :
  String.prefix keyword s = true → ∃ rest, s = keyword +:+ rest.
Proof.
  revert s. induction keyword as [|a k IH]; intros s Hprefix.
  - by exists s.
  - destruct s as [|b s]; simpl in Hprefix; [done|].
    destruct (ascii_dec a b) as [->|]; [|done].
    apply IH in Hprefix as [rest ->]. by exists rest.
Qed.

(** Property X24. The mock picks its answer by the word the question
    starts with, letter case aside: a question that starts with one of
    how, what, why, when, where gets that keyword's canned answer, and any
    other question gets the general answer with confidence 0.60. No
    question starts with two of the keywords, so the order of the table
    plays no part. *)
Theorem mock_answer_by_keyword question bits :
  (∀ keyword response,
     (keyword, response) ∈ mock_responses →
     String.prefix keyword (lower question) = true →
     suggested_answer (_get_mock_answer question bits) = response ∧
     sources (_get_mock_answer question bits) = ["Mock RAG System"; "Demo Knowledge Base"]) ∧
  ((∀ keyword response,
      (keyword, response) ∈ mock_responses →
      String.prefix keyword (lower question) = false) →
   suggested_answer (_get_mock_answer question bits) = fallback_answer ∧
   confidence (_get_mock_answer question bits) = 60 # 100 ∧
   sources (_get_mock_answer question bits) = ["Mock RAG System"; "General Knowledge Base"]).
Proof.
  split.
  - intros keyword response Hin Hprefix.
    apply prefix_inv in Hprefix as [rest Hrest].
    assert (Hfirst : first_keyword (keyword +:+ rest) mock_responses = Some response).
    { unfold mock_responses in Hin.
      repeat (apply elem_of_cons in Hin as [[= -> ->]|Hin];
              [destruct rest; vm_compute; reflexivity|]).
      by apply not_elem_of_nil in Hin. }
    unfold _get_mock_answer. rewrite Hrest, Hfirst. by split.
  - intros Hnone. unfold _get_mock_answer.
    assert (Hfirst : first_keyword (lower question) mock_responses = None).
    { unfold mock_responses in *. simpl.
      rewrite (Hnone "how" _) by (left).
      rewrite (Hnone "what" _) by (right; left).
      rewrite (Hnone "why" _) by (do 2 right; left).
      rewrite (Hnone "when" _) by (do 3 right; left).
      by rewrite (Hnone "where" _) by (do 4 right; left). }
    by rewrite Hfirst.
Qed.

Lemma mock_answer_by_keyword_witness :
  suggested_answer (_get_mock_answer "WHEN is the deadline?" 0%N)
  = "The timing for this depends on several factors including your specific requirements and constraints. Generally, it's best to consider the context and plan accordingly.".
Proof.
  destruct (mock_answer_by_keyword "WHEN is the deadline?" 0%N) as [Hkey _].
  refine (proj1 (Hkey "when" _ _ _)).
  - unfold mock_responses. do 3 right. left.
  - vm_compute. reflexivity.
Defined.

Lemma get_suggested_answer_returns self question bits s :
  ∃ suggestion,
    get_suggested_answer self question bits s = (Return suggestion, s) ∧
    RAGService.question suggestion = question.
Proof.
  rewrite get_suggested_answer_eq. eexists. split; [done|].
  assert (Hmock : RAGService.question (_get_mock_answer question bits) = question).
  { unfold _get_mock_answer. by destruct (first_keyword _ _). }
  destruct (llm self) as [chain|]; [|done]. by destruct (chain question).
Qed.

(** Property X25. The suggestion route answers 200 with a suggestion for
    the question asked whenever the question has 1 to 1000 characters, and
    422 otherwise; it never answers 500, whatever the chain does, and it
    leaves the state alone. *)
Theorem suggest_route_never_fails rag_service body_question bits s :
  ((1 ≤ String.length body_question ≤ 1000)%nat →
   ∃ suggestion,
     POST_rag_suggest rag_service body_question bits s = (Success 200 suggestion, s) ∧
     RAGService.question suggestion = body_question) ∧
  (¬ (1 ≤ String.length body_question ≤ 1000)%nat →
   POST_rag_suggest rag_service body_question bits s
   = (Failure ValidationError "question", s)).
Proof.
  unfold POST_rag_suggest, route, RAGRequest.validate. split; intros Hlen.
  - rewrite bool_decide_eq_true_2 by done.
    destruct (get_suggested_answer_returns rag_service body_question bits s)
      as (suggestion & Hget & Hq).
    exists suggestion. split; [|done].
    unfold get_answer_suggestion, try_except, bind. by rewrite Hget.
  - by rewrite bool_decide_eq_false_2.
Qed.

Lemma suggest_route_never_fails_witness :
  (∃ suggestion,
     POST_rag_suggest {| RAGService.llm := None |} "Why is the sky blue?" 0%N initial_state
     = (Success 200 suggestion, initial_state)) ∧
  POST_rag_suggest {| RAGService.llm := None |} "" 0%N initial_state
  = (Failure ValidationError "question", initial_state).
Proof.
  destruct (suggest_route_never_fails {| RAGService.llm := None |} "Why is the sky blue?"
              0%N initial_state) as [Hok _].
  destruct (suggest_route_never_fails {| RAGService.llm := None |} "" 0%N initial_state)
    as [_ Hbad].
  split.
  - destruct Hok as (suggestion & Hpost & _); [vm_compute; lia|]. by exists suggestion.
  - apply Hbad. vm_compute. lia.
Defined.

End mock_answers.

(** ** The lifecycle of a question, by its effects *)

Section lifecycle_effects.
Implicit Types (s : State) (d : DB).

Lemma update_question_status_row question_id status s q :
  q ∈ questions (db s) → QuestionRow.question_id q = question_id →
  ∃ q', q' ∈ questions (db (QuestionDB.update_question_status question_id status s).2) ∧
        written_once q' = written_once q ∧
        QuestionRow.status q' = status ∧
        QuestionRow.answered_at q'
          = if decide (status = "Answered") then Some (datetime_now s) else None.
Proof.
  intros Hq Hid. eexists. split.
  - simpl. apply list_elem_of_fmap. exists q. split; [|done]. by rewrite decide_True.
  - by split.
Qed.

Lemma update_question_status_others question_id status s q :
  q ∈ questions (db s) → QuestionRow.question_id q ≠ question_id →
  q ∈ questions (db (QuestionDB.update_question_status question_id status s).2).
Proof.
  intros Hq Hid. simpl. apply list_elem_of_fmap. exists q. by rewrite decide_False.
Qed.

Lemma store_run_kept ops s :
  answered_at_invariant s →
  answered_at_invariant (store_run ops s) ∧
  (written_once <$> questions (db s))
    `prefix_of` (written_once <$> questions (db (store_run ops s))).
Proof.
  revert s. unfold store_run.
  induction ops as [|op ops IH]; intros s Hinv; simpl; [done|].
  destruct (IH (store_step s op)) as [Hinv' Hpre]; [by apply store_step_answered_at|].
  split; [done|]. etrans; [|exact Hpre].
  apply (store_change_append_only s), store_step_store_change.
Qed.

Lemma run_kept events s :
  answered_at_invariant s →
  answered_at_invariant (run events s) ∧
  (written_once <$> questions (db s))
    `prefix_of` (written_once <$> questions (db (run events s))).
Proof.
  revert s. unfold run.
  induction events as [|ev events IH]; intros s Hinv; simpl; [done|].
  destruct (IH (step s ev)) as [Hinv' Hpre]; [by apply step_answered_at|].
  split; [done|]. etrans; [|exact Hpre].
  apply (store_change_append_only s), step_store_change.
Qed.

(** Claim C3. A question is created Pending with [answered_at] null. A
    status update writes the question it names: the row that has that id
    before the update is there after it, in the same place, with the new
    status and with [answered_at] set to the time of the update when the
    new status is Answered and cleared otherwise, its other columns as
    they were; the other rows are untouched and no row is added or
    dropped. So [answered_at] is changed by nothing but a status update,
    and is non-null exactly for Answered questions: the invariant holds
    after every sequence of store operations and of events, and the
    columns written at creation are kept. *)
Theorem answered_at_iff_answered :
  (∀ s user_id username message category,
     ∃ q, questions (db (QuestionDB.create_question user_id username message category s).2)
            = questions (db s) ++ [q] ∧
          QuestionRow.status q = "Pending" ∧ QuestionRow.answered_at q = None) ∧
  (∀ s question_id status,
     let s' := (QuestionDB.update_question_status question_id status s).2 in
     (∀ q, q ∈ questions (db s) → QuestionRow.question_id q = question_id →
        ∃ q', q' ∈ questions (db s') ∧ written_once q' = written_once q ∧
              QuestionRow.status q' = status ∧
              QuestionRow.answered_at q'
                = if decide (status = "Answered") then Some (datetime_now s) else None) ∧
     (∀ q, q ∈ questions (db s) → QuestionRow.question_id q ≠ question_id →
        q ∈ questions (db s')) ∧
     QuestionRow.question_id <$> questions (db s')
       = QuestionRow.question_id <$> questions (db s) ∧
     (∀ q', q' ∈ questions (db s') → QuestionRow.question_id q' = question_id →
        QuestionRow.status q' = status ∧
        (status = "Answered" → is_Some (QuestionRow.answered_at q')) ∧
        (status = "Pending" ∨ status = "Escalated" → QuestionRow.answered_at q' = None))) ∧
  (∀ s, answered_at_invariant s →
        (∀ ops, answered_at_invariant (store_run ops s) ∧
                (written_once <$> questions (db s))
                  `prefix_of` (written_once <$> questions (db (store_run ops s)))) ∧
        (∀ events, answered_at_invariant (run events s) ∧
                   (written_once <$> questions (db s))
                     `prefix_of` (written_once <$> questions (db (run events s))))).
Proof.
  split; [|split].
  - intros. apply create_question_pending.
  - intros s qid st s'. split; [|split; [|split]].
    + intros q Hq Hid. by apply update_question_status_row.
    + intros q Hq Hid. by apply update_question_status_others.
    + apply update_status_ids.
    + intros q Hq Hid.
      destruct (update_question_status_sets qid st s q Hq Hid) as [Hst Hat].
      split; [done|]. rewrite Hat. split.
      * intros ->. by eexists.
      * intros [-> | ->]; by rewrite decide_False.
  - intros s Hinv. split.
    + intros ops. by apply store_run_kept.
    + intros events. by apply run_kept.
Qed.

Lemma answered_at_iff_answered_witness :
  (∃ q', q' ∈ questions (db (QuestionDB.update_question_status 1 "Answered"
                               one_pending_question).2) ∧
         QuestionRow.message q' = "first" ∧
         QuestionRow.status q' = "Answered" ∧
         QuestionRow.answered_at q' = Some "2024-01-01T00:00:05.000000") ∧
  answered_at_invariant
    (store_run [ StoreUpdateQuestionStatus 1 "Answered";
                 StoreUpdateQuestionStatus 1 "Pending" ] one_pending_question) ∧
  answered_at_invariant triage_sample.
Proof.
  destruct answered_at_iff_answered as (_ & Hupdate & Hkept).
  assert (Hinitial : answered_at_invariant initial_state).
  { intros q Hq. by apply not_elem_of_nil in Hq. }
  assert (Hone : answered_at_invariant one_pending_question).
  { apply (Hkept initial_state Hinitial). }
  split; [|split].
  - destruct (Hupdate one_pending_question 1 "Answered") as (Hrow & _).
    destruct (Hrow {| QuestionRow.question_id := 1; QuestionRow.user_id := None;
                      QuestionRow.username := "Guest"; QuestionRow.message := "first";
                      QuestionRow.status := "Pending"; QuestionRow.category := "General";
                      QuestionRow.timestamp := "2024-01-01 00:00:01";
                      QuestionRow.answered_at := None |})
      as (q' & Hin & Hw & Hst & Hat); [by_evaluation|reflexivity|].
    exists q'. split; [exact Hin|]. split; [|split; [exact Hst|exact Hat]].
    by injection Hw.
  - apply (Hkept one_pending_question Hone).
  - apply (Hkept initial_state Hinitial).
Defined.

End lifecycle_effects.

(** ** Answers to unknown questions *)

Section unknown_question.
Implicit Types (s : State).

(** Claim C6, as amended. Submitting an answer for a question id that
    sqlite3 can bind and that selects no question is refused, and leaves
    the state as it was: nothing is stored and nothing is sent to any
    observer. A body that validates is refused with NotFoundError and the
    detail "Question not found"; a body whose message is empty or longer
    than 2000 characters is refused before the question is looked up,
    with ValidationError. *)
Theorem submit_answer_unknown_question s body current_user :
  int64 (AnswerCreate.body_question_id body) →
  SQL.select_question (AnswerCreate.body_question_id body) (db s) = None →
  POST_answers body current_user s
  = (if bool_decide (1 ≤ String.length (AnswerCreate.body_message body) ≤ 2000)%nat
     then Failure NotFoundError "Question not found"
     else Failure ValidationError "message", s).
Proof.
  intros _ Hnone. unfold POST_answers, route, AnswerCreate.validate.
  destruct (bool_decide _); [|done].
  rewrite create_answer_eq. simpl AnswerCreate.question_id. by rewrite Hnone.
Qed.

Lemma submit_answer_unknown_question_witness :
  POST_answers (guest_answer 7 "reply") None triage_sample
  = (Failure NotFoundError "Question not found", triage_sample).
Proof.
  refine (submit_answer_unknown_question triage_sample (guest_answer 7 "reply") None _ _).
  - vm_compute. split; [discriminate|reflexivity].
  - vm_compute. reflexivity.
Defined.

(** Claim C6 as stated fails: an answer with an empty message for the
    unknown question 7 is not refused with NotFoundError; the body is
    rejected with ValidationError before the question is looked up. *)
Lemma invalid_answer_for_unknown_question :
  ¬ unknown_question_is_not_found triage_sample (guest_answer 7 "") None.
Proof.
  intros Hclaim. destruct Hclaim as [detail Hpost]; [vm_compute; reflexivity|].
  vm_compute in Hpost. discriminate Hpost.
Qed.

End unknown_question.
